(** * Looking Glass client audio engine (client/src/audio.c)

    A shallow embedding of the playback clock-recovery engine: the sink pull
    callback [playbackPullFrames], the source data path [audio_playbackData],
    the stream lifecycle and the record surface.  Doubles are the kernel's
    IEEE binary64 floats; int and int64_t values are [Z] (signed overflow is
    undefined behaviour in C and does not occur for the stream parameters);
    calls to the backend, the resampler and the ring buffers are recorded in
    an event log, in call order. *)

From Stdlib Require Import ZArith List Bool Lia Floats.
Import ListNotations.
Open Scope Z_scope.
Set Warnings "-inexact-float".

(** ** C numeric conversions on doubles *)

(** [(double) z] for an integer [z]: round to nearest, ties to even. *)
Definition Z2F (z : Z) : float :=
  SF2Prim (binary_normalize prec emax z 0 false).

Definition INT64_MIN : Z := -9223372036854775808.
Definition INT64_MAX : Z := 9223372036854775807.

(** [m / 2^k] rounded to nearest, ties to even ([k > 0]). *)
Definition shr_round_even (m k : Z) : Z :=
  let d := 2 ^ k in
  let q := m / d in
  let r := m mod d in
  if 2 * r <? d then q
  else if d <? 2 * r then q + 1
  else if Z.even q then q else q + 1.

(** [m / 2^k] rounded to nearest, ties away from zero ([m >= 0], [k > 0]). *)
Definition shr_round_away (m k : Z) : Z :=
  let d := 2 ^ k in
  let q := m / d in
  let r := m mod d in
  if 2 * r <? d then q else q + 1.

(** [llrint]: round to nearest (default rounding mode, ties to even) and
    convert to [long long]; out of range and NaN give the x86 "integer
    indefinite" value [INT64_MIN]. *)
Definition llrint (x : float) : Z :=
  match Prim2SF x with
  | S754_zero _ => 0
  | S754_finite s m e =>
      let v := if 0 <=? e then Z.shiftl (Zpos m) e
               else shr_round_even (Zpos m) (- e) in
      let v := if s then - v else v in
      if (INT64_MIN <=? v) && (v <=? INT64_MAX) then v else INT64_MIN
  | _ => INT64_MIN
  end.

(** [int n = round(x)]: [round] (ties away from zero) followed by the
    conversion of its integral result to [int]. *)
Definition round_int (x : float) : Z :=
  match Prim2SF x with
  | S754_finite s m e =>
      let v := if 0 <=? e then Z.shiftl (Zpos m) e
               else shr_round_away (Zpos m) (- e) in
      if s then - v else v
  | _ => 0
  end.

Definition M_PI : float := 3.14159265358979323846%float.
Definition M_SQRT2 : float := 1.41421356237309504880%float.

(** ** Stream state *)

Inductive StreamState :=
| STREAM_STATE_STOP
| STREAM_STATE_SETUP
| STREAM_STATE_RUN
| STREAM_STATE_DRAIN.

Definition STREAM_ACTIVE (state : StreamState) : bool :=
  match state with
  | STREAM_STATE_SETUP | STREAM_STATE_RUN => true
  | _ => false
  end.

Definition frame := list float.

(** ** Ring buffers *)

(** Modelled from the spec: the coupling ring buffer of common/ringbuffer.c
    (not part of the sources).  Spec section 4.1: an unbounded FIFO of frames;
    [append(NULL, n)] appends [n] frames of silence, [consume(NULL, n)]
    discards [n] frames, [count()] is the number of resident frames.  The spec
    does not say what a negative count does; here it moves nothing.  A consume
    of more than is resident takes what is resident. *)
Record RingBuffer := mkRingBuffer {
  rb_stride : nat;         (* floats per frame *)
  rb_frames : list frame
}.

Definition ringbuffer_newUnbounded (stride : nat) : RingBuffer :=
  mkRingBuffer stride [].

Definition ringbuffer_getCount (rb : option RingBuffer) : Z :=
  match rb with
  | Some r => Z.of_nat (length (rb_frames r))
  | None => 0
  end.

Definition ringbuffer_append (rb : RingBuffer) (data : option (list frame))
    (count : Z) : RingBuffer :=
  let n := Z.to_nat count in
  let add := match data with
             | None => repeat (repeat 0%float (rb_stride rb)) n
             | Some fs => firstn n fs
             end in
  mkRingBuffer (rb_stride rb) (rb_frames rb ++ add).

(** The frames handed to [dst] and the buffer after the consume. *)
Definition ringbuffer_consume (rb : RingBuffer) (count : Z)
    : list frame * RingBuffer :=
  let n := Z.to_nat count in
  (firstn n (rb_frames rb), mkRingBuffer (rb_stride rb) (skipn n (rb_frames rb))).

Module Tick.
Record PlaybackDeviceTick := mkTick {
  periodFrames : Z;
  nextTime     : Z;
  nextPosition : Z
}.
End Tick.

(** The 16-slot tick queue ([ringbuffer_new(16, ...)]): a bounded FIFO whose
    append stores nothing when it is full (the spec leaves overflow
    implementation-defined). *)
Definition tickQueueSize : nat := 16.

Definition tick_append (q : list Tick.PlaybackDeviceTick)
    (t : Tick.PlaybackDeviceTick) : list Tick.PlaybackDeviceTick :=
  if Nat.ltb (length q) tickQueueSize then q ++ [t] else q.

(** The latency graph ring ([ringbuffer_new(1200, ...)] with
    [ringbuffer_push]): a push onto a full ring drops the oldest value. *)
Definition timingsSize : nat := 1200.

Definition timings_push (r : list float) (v : float) : list float :=
  let r' := r ++ [v] in
  if Nat.ltb timingsSize (length r') then tl r' else r'.

(** ** Per-thread clock state *)

Module Dev.
(** [PlaybackDeviceData]: the sink (device thread) clock tracker. *)
Record PlaybackDeviceData := mkDeviceData {
  periodFrames : Z;
  periodSec    : float;
  nextTime     : Z;
  nextPosition : Z;
  b            : float;
  c            : float
}.
End Dev.

(** libsamplerate (external): the converter state is opaque to the engine. *)
Record SRC_STATE := mkSrcState {
  src_channels : Z;
  src_private  : list float
}.

Record SRC_DATA := mkSrcData {
  data_in           : list float;
  data_out          : list float;
  input_frames      : Z;
  output_frames     : Z;
  input_frames_used : Z;
  output_frames_gen : Z;
  end_of_input      : Z;
  src_ratio         : float
}.

Module Spice.
(** [PlaybackSpiceData]: the source (Spice thread) state.  The scratch
    buffers are [None] when not allocated. *)
Record PlaybackSpiceData := mkSpiceData {
  framesIn            : option (list float);
  framesOut           : option (list float);
  framesOutSize       : Z;
  periodFrames        : Z;
  periodSec           : float;
  nextTime            : Z;
  nextPosition        : Z;
  b                   : float;
  c                   : float;
  devPeriodFrames     : Z;
  devLastTime         : Z;
  devNextTime         : Z;
  devLastPosition     : Z;
  devNextPosition     : Z;
  offsetError         : float;
  offsetErrorIntegral : float;
  ratioIntegral       : float;
  src                 : option SRC_STATE
}.

Definition set_scratch (fin fout : option (list float)) (outSize pf : Z)
    (s : PlaybackSpiceData) : PlaybackSpiceData :=
  mkSpiceData fin fout outSize pf (periodSec s) (nextTime s) (nextPosition s)
    (b s) (c s) (devPeriodFrames s) (devLastTime s) (devNextTime s)
    (devLastPosition s) (devNextPosition s) (offsetError s)
    (offsetErrorIntegral s) (ratioIntegral s) (src s).

Definition set_clock (ps : float) (nt np : Z) (b' c' : float)
    (s : PlaybackSpiceData) : PlaybackSpiceData :=
  mkSpiceData (framesIn s) (framesOut s) (framesOutSize s) (periodFrames s)
    ps nt np b' c' (devPeriodFrames s) (devLastTime s) (devNextTime s)
    (devLastPosition s) (devNextPosition s) (offsetError s)
    (offsetErrorIntegral s) (ratioIntegral s) (src s).

Definition set_dev (dpf dlt dnt dlp dnp : Z)
    (s : PlaybackSpiceData) : PlaybackSpiceData :=
  mkSpiceData (framesIn s) (framesOut s) (framesOutSize s) (periodFrames s)
    (periodSec s) (nextTime s) (nextPosition s) (b s) (c s)
    dpf dlt dnt dlp dnp (offsetError s)
    (offsetErrorIntegral s) (ratioIntegral s) (src s).

Definition set_offset (oe oei : float)
    (s : PlaybackSpiceData) : PlaybackSpiceData :=
  mkSpiceData (framesIn s) (framesOut s) (framesOutSize s) (periodFrames s)
    (periodSec s) (nextTime s) (nextPosition s) (b s) (c s)
    (devPeriodFrames s) (devLastTime s) (devNextTime s)
    (devLastPosition s) (devNextPosition s) oe oei (ratioIntegral s) (src s).

Definition set_ratioIntegral (ri : float)
    (s : PlaybackSpiceData) : PlaybackSpiceData :=
  mkSpiceData (framesIn s) (framesOut s) (framesOutSize s) (periodFrames s)
    (periodSec s) (nextTime s) (nextPosition s) (b s) (c s)
    (devPeriodFrames s) (devLastTime s) (devNextTime s)
    (devLastPosition s) (devNextPosition s) (offsetError s)
    (offsetErrorIntegral s) ri (src s).

Definition set_resampled (np : Z) (st : option SRC_STATE)
    (s : PlaybackSpiceData) : PlaybackSpiceData :=
  mkSpiceData (framesIn s) (framesOut s) (framesOutSize s) (periodFrames s)
    (periodSec s) (nextTime s) np (b s) (c s)
    (devPeriodFrames s) (devLastTime s) (devNextTime s)
    (devLastPosition s) (devNextPosition s) (offsetError s)
    (offsetErrorIntegral s) (ratioIntegral s) st.
End Spice.

(** ** Backend and engine state *)

(** [struct LG_AudioDevOps] as seen by the engine: which optional callbacks
    are present, the value [playback.setup] writes to its
    [maxPeriodFrames] out-parameter, and what [playback.latency()] returns. *)
Record LG_AudioDevOps := mkAudioDev {
  has_playback_volume  : bool;
  has_playback_mute    : bool;
  playback_latency     : option Z;
  setup_maxPeriodFrames : Z;
  has_record_volume    : bool;
  has_record_mute      : bool
}.

(** Calls the engine makes into its collaborators, in order. *)
Inductive Event :=
| EvPlaybackSetup (channels sampleRate : Z)
| EvPlaybackStart
| EvPlaybackStop
| EvPlaybackVolume (channels : Z) (volume : list Z)
| EvPlaybackMute (mute : bool)
| EvRecordStart (channels sampleRate : Z)
| EvRecordStop
| EvRecordVolume (channels : Z) (volume : list Z)
| EvRecordMute (mute : bool)
| EvBufferAppend (data : option (list frame)) (count : Z)
| EvBufferConsume (toDst : bool) (count : Z)
| EvTickAppend (tick : Tick.PlaybackDeviceTick)
| EvSrcNew (channels : Z)
| EvSrcProcess (data : SRC_DATA)
| EvSrcDelete
| EvRegisterGraph
| EvUnregisterGraph
| EvInvalidateGraph.

Module PB.
(** [audio.playback] *)
Record Playback := mkPlayback {
  state                 : StreamState;
  volumeChannels        : Z;
  volume                : list Z;
  mute                  : bool;
  channels              : Z;
  sampleRate            : Z;
  stride                : Z;
  deviceMaxPeriodFrames : Z;
  buffer                : option RingBuffer;
  deviceTiming          : option (list Tick.PlaybackDeviceTick);
  timings               : option (list float);
  deviceData            : Dev.PlaybackDeviceData;
  spiceData             : Spice.PlaybackSpiceData
}.
End PB.

Module Rec.
(** [audio.record] *)
Record RecordState := mkRecord {
  started        : bool;
  volumeChannels : Z;
  volume         : list Z;
  mute           : bool;
  stride         : Z
}.
End Rec.

(** [AudioState audio], with the two [static] locals of
    [audio_recordStart]. *)
Record AudioState := mkAudio {
  audioDev       : option LG_AudioDevOps;
  playback       : PB.Playback;
  record         : Rec.RecordState;
  lastChannels   : Z;
  lastSampleRate : Z
}.

Definition set_playback (p : PB.Playback) (a : AudioState) : AudioState :=
  mkAudio (audioDev a) p (record a) (lastChannels a) (lastSampleRate a).

Definition set_record (r : Rec.RecordState) (a : AudioState) : AudioState :=
  mkAudio (audioDev a) (playback a) r (lastChannels a) (lastSampleRate a).

Scheme Equality for StreamState.

Module PBset.
Import PB.
Definition set_state (s : StreamState) (p : Playback) : Playback :=
  mkPlayback s (volumeChannels p) (volume p) (mute p) (channels p)
    (sampleRate p) (stride p) (deviceMaxPeriodFrames p) (buffer p)
    (deviceTiming p) (timings p) (deviceData p) (spiceData p).

Definition set_volume (vc : Z) (v : list Z) (p : Playback) : Playback :=
  mkPlayback (state p) vc v (mute p) (channels p)
    (sampleRate p) (stride p) (deviceMaxPeriodFrames p) (buffer p)
    (deviceTiming p) (timings p) (deviceData p) (spiceData p).

Definition set_mute (m : bool) (p : Playback) : Playback :=
  mkPlayback (state p) (volumeChannels p) (volume p) m (channels p)
    (sampleRate p) (stride p) (deviceMaxPeriodFrames p) (buffer p)
    (deviceTiming p) (timings p) (deviceData p) (spiceData p).

Definition set_buffers (buf : option RingBuffer)
    (dt : option (list Tick.PlaybackDeviceTick)) (tm : option (list float))
    (p : Playback) : Playback :=
  mkPlayback (state p) (volumeChannels p) (volume p) (mute p) (channels p)
    (sampleRate p) (stride p) (deviceMaxPeriodFrames p) buf dt tm
    (deviceData p) (spiceData p).

Definition set_deviceData (d : Dev.PlaybackDeviceData) (p : Playback)
    : Playback :=
  mkPlayback (state p) (volumeChannels p) (volume p) (mute p) (channels p)
    (sampleRate p) (stride p) (deviceMaxPeriodFrames p) (buffer p)
    (deviceTiming p) (timings p) d (spiceData p).

Definition set_spiceData (s : Spice.PlaybackSpiceData) (p : Playback)
    : Playback :=
  mkPlayback (state p) (volumeChannels p) (volume p) (mute p) (channels p)
    (sampleRate p) (stride p) (deviceMaxPeriodFrames p) (buffer p)
    (deviceTiming p) (timings p) (deviceData p) s.

Definition set_stream (ch sr st maxp : Z) (p : Playback) : Playback :=
  mkPlayback (state p) (volumeChannels p) (volume p) (mute p) ch sr st maxp
    (buffer p) (deviceTiming p) (timings p) (deviceData p) (spiceData p).
End PBset.
Import PBset.

Definition modify_playback (f : PB.Playback -> PB.Playback) (a : AudioState)
    : AudioState :=
  set_playback (f (playback a)) a.

(** ** [playbackStop] *)

Definition playbackStop (a : AudioState) : AudioState * list Event :=
  let p := playback a in
  if StreamState_beq (PB.state p) STREAM_STATE_STOP then (a, []) else
  let sd := PB.spiceData p in
  (* src_delete returns NULL *)
  let sd := Spice.set_resampled (Spice.nextPosition sd) None sd in
  let sd := match Spice.framesIn sd with
            | Some _ => Spice.set_scratch None None (Spice.framesOutSize sd)
                          (Spice.periodFrames sd) sd
            | None => sd
            end in
  let evGraph := match PB.timings p with
                 | Some _ => [EvUnregisterGraph]
                 | None => []
                 end in
  let p := set_state STREAM_STATE_STOP p in
  let p := set_buffers None None None p in
  let p := set_spiceData sd p in
  (set_playback p a, [EvPlaybackStop; EvSrcDelete] ++ evGraph).

(** ** [playbackPullFrames]: the sink (device thread) pull callback *)

Definition bandwidth : float := 0.05.

(** Lines 214-281 of [playbackPullFrames]: the clock measurement, the tick
    post and the read from the coupling buffer.  Returns the frame count,
    the frames written to [dst], the state and the calls made. *)
Definition playbackPullBody (now frames : Z) (a : AudioState)
    : Z * list frame * AudioState * list Event :=
  let p := playback a in
  let data := PB.deviceData p in
  match PB.buffer p with
  | Some buf =>
    let '(data', buf1, ev1) :=
      if negb (frames =? Dev.periodFrames data) then
        let newPeriodSec := (Z2F frames / Z2F (PB.sampleRate p))%float in
        let init := Dev.periodFrames data =? 0 in
        let nextTime :=
          if init then now + llrint (newPeriodSec * 1.0e9)%float
          else Dev.nextTime data + llrint (Dev.periodSec data * 1.0e9)%float in
        let omega := (2.0 * M_PI * bandwidth * newPeriodSec)%float in
        (Dev.mkDeviceData frames newPeriodSec nextTime
           (Dev.nextPosition data + frames)
           (M_SQRT2 * omega)%float (omega * omega)%float, buf, [])
      else
        let error := (Z2F (now - Dev.nextTime data) * 1.0e-9)%float in
        if (0.2 <=? abs error)%float then
          let slewFrames := round_int (error * Z2F (PB.sampleRate p))%float in
          let '(_, buf') := ringbuffer_consume buf slewFrames in
          let periodSec := (Z2F frames / Z2F (PB.sampleRate p))%float in
          (Dev.mkDeviceData (Dev.periodFrames data) periodSec
             (now + llrint (periodSec * 1.0e9)%float)
             (Dev.nextPosition data + (slewFrames + frames))
             (Dev.b data) (Dev.c data),
           buf', [EvBufferConsume false slewFrames])
        else
          (Dev.mkDeviceData (Dev.periodFrames data)
             (Dev.periodSec data + Dev.c data * error)%float
             (Dev.nextTime data +
                llrint ((Dev.b data * error + Dev.periodSec data) * 1.0e9)%float)
             (Dev.nextPosition data + frames)
             (Dev.b data) (Dev.c data),
           buf, [])
    in
    let tick := Tick.mkTick (Dev.periodFrames data') (Dev.nextTime data')
                  (Dev.nextPosition data') in
    let dt := option_map (fun q => tick_append q tick) (PB.deviceTiming p) in
    let '(out, buf2) := ringbuffer_consume buf1 frames in
    let p := set_deviceData data' p in
    let p := set_buffers (Some buf2) dt (PB.timings p) p in
    (frames, out, set_playback p a,
     ev1 ++ [EvTickAppend tick; EvBufferConsume true frames])
  | None => (0, [], a, [])
  end.

Definition playbackPullFrames (now frames : Z) (a : AudioState)
    : Z * list frame * AudioState * list Event :=
  if frames =? 0 then (frames, [], a, []) else
  let '(n, out, a1, ev1) := playbackPullBody now frames a in
  if StreamState_beq (PB.state (playback a1)) STREAM_STATE_DRAIN &&
     (ringbuffer_getCount (PB.buffer (playback a1)) <=? 0)
  then let '(a2, ev2) := playbackStop a1 in (n, out, a2, ev1 ++ ev2)
  else (n, out, a1, ev1).

(** ** Stream control *)

Section Lifecycle.

(** libsamplerate's [src_new(SRC_SINC_BEST_QUALITY, channels, &err)]; [None]
    is a failed creation. *)
Variable src_new : Z -> option SRC_STATE.

Definition audio_playbackStart (channels sampleRate : Z) (a : AudioState)
    : AudioState * list Event :=
  match audioDev a with
  | None => (a, [])
  | Some dev =>
    let '(a, ev0) :=
      if negb (StreamState_beq (PB.state (playback a)) STREAM_STATE_STOP)
      then playbackStop a else (a, []) in
    match src_new channels with
    | None => (a, ev0 ++ [EvSrcNew channels])
    | Some st =>
      let p := playback a in
      let dd := PB.deviceData p in
      let dd := Dev.mkDeviceData 0 (Dev.periodSec dd) (Dev.nextTime dd) 0
                  (Dev.b dd) (Dev.c dd) in
      let sd := PB.spiceData p in
      let sd := Spice.mkSpiceData (Spice.framesIn sd) (Spice.framesOut sd)
                  (Spice.framesOutSize sd) 0 (Spice.periodSec sd)
                  (Spice.nextTime sd) 0 (Spice.b sd) (Spice.c sd)
                  (Spice.devPeriodFrames sd) INT64_MIN INT64_MIN
                  (Spice.devLastPosition sd) (Spice.devNextPosition sd)
                  0.0%float 0.0%float 0.0%float (Some st) in
      (* the initial capacity (bufferFrames = sampleRate) is not modelled *)
      let p := set_buffers (Some (ringbuffer_newUnbounded (Z.to_nat channels)))
                 (Some []) (PB.timings p) p in
      let p := set_state STREAM_STATE_SETUP p in
      (* deviceMaxPeriodFrames = 0, then written by playback.setup *)
      let p := set_stream channels sampleRate (channels * 4)
                 (setup_maxPeriodFrames dev) p in
      let p := set_deviceData dd p in
      let p := set_spiceData sd p in
      let evVol := if negb (PB.volumeChannels p =? 0)
                   then [EvPlaybackVolume (PB.volumeChannels p) (PB.volume p)]
                   else [] in
      let evMute := if has_playback_mute dev
                    then [EvPlaybackMute (PB.mute p)] else [] in
      let p := set_buffers (PB.buffer p) (PB.deviceTiming p) (Some []) p in
      let p := set_state STREAM_STATE_SETUP p in
      (set_playback p a,
       ev0 ++ [EvSrcNew channels; EvPlaybackSetup channels sampleRate]
           ++ evVol ++ evMute ++ [EvRegisterGraph])
    end
  end.

End Lifecycle.

Definition audio_playbackStop (a : AudioState) : AudioState :=
  match audioDev a with
  | None => a
  | Some _ =>
    if StreamState_beq (PB.state (playback a)) STREAM_STATE_STOP then a
    else modify_playback (set_state STREAM_STATE_DRAIN) a
  end.

(** [memcpy(volume, src, sizeof(uint16_t) * n)] into the 8-entry array. *)
Definition store_volume (n : Z) (src old : list Z) : list Z :=
  firstn (Z.to_nat n) src ++ skipn (Z.to_nat n) old.

Definition audio_playbackVolume (channels : Z) (volume : list Z)
    (a : AudioState) : AudioState * list Event :=
  match audioDev a with
  | Some dev =>
    if negb (has_playback_volume dev) then (a, []) else
    let channels := Z.min 8 channels in
    let a := modify_playback (fun p =>
               set_volume channels (store_volume channels volume (PB.volume p)) p) a in
    if negb (STREAM_ACTIVE (PB.state (playback a))) then (a, [])
    else (a, [EvPlaybackVolume channels volume])
  | None => (a, [])
  end.

Definition audio_playbackMute (mute : bool) (a : AudioState)
    : AudioState * list Event :=
  match audioDev a with
  | Some dev =>
    if negb (has_playback_mute dev) then (a, []) else
    let a := modify_playback (set_mute mute) a in
    if negb (STREAM_ACTIVE (PB.state (playback a))) then (a, [])
    else (a, [EvPlaybackMute mute])
  | None => (a, [])
  end.

(** ** Record surface *)

Definition audio_recordStart (channels sampleRate : Z) (a : AudioState)
    : AudioState * list Event :=
  match audioDev a with
  | None => (a, [])
  | Some dev =>
    let r := record a in
    let cont (ev0 : list Event) :=
      let r := Rec.mkRecord true (Rec.volumeChannels r) (Rec.volume r)
                 (Rec.mute r) (channels * 2) in
      let a := mkAudio (audioDev a) (playback a) r channels sampleRate in
      let evVol := if negb (Rec.volumeChannels r =? 0)
                   then [EvRecordVolume (PB.volumeChannels (playback a))
                                        (PB.volume (playback a))]
                   else [] in
      let evMute := if has_record_mute dev
                    then [EvRecordMute (PB.mute (playback a))] else [] in
      (a, ev0 ++ [EvRecordStart channels sampleRate] ++ evVol ++ evMute) in
    if Rec.started r then
      if negb (channels =? lastChannels a) || negb (sampleRate =? lastSampleRate a)
      then cont [EvRecordStop]
      else (a, [])
    else cont []
  end.

Definition audio_recordStop (a : AudioState) : AudioState * list Event :=
  match audioDev a with
  | Some _ =>
    if negb (Rec.started (record a)) then (a, []) else
    let r := record a in
    (set_record (Rec.mkRecord false (Rec.volumeChannels r) (Rec.volume r)
                   (Rec.mute r) (Rec.stride r)) a, [EvRecordStop])
  | None => (a, [])
  end.

Definition audio_recordVolume (channels : Z) (volume : list Z)
    (a : AudioState) : AudioState * list Event :=
  match audioDev a with
  | Some dev =>
    if negb (has_record_volume dev) then (a, []) else
    let channels := Z.min 8 channels in
    let r := record a in
    let a := set_record (Rec.mkRecord (Rec.started r) channels
               (store_volume channels volume (Rec.volume r))
               (Rec.mute r) (Rec.stride r)) a in
    if negb (Rec.started r) then (a, [])
    else (a, [EvRecordVolume channels volume])
  | None => (a, [])
  end.

Definition audio_recordMute (mute : bool) (a : AudioState)
    : AudioState * list Event :=
  match audioDev a with
  | Some dev =>
    if negb (has_record_mute dev) then (a, []) else
    let r := record a in
    let a := set_record (Rec.mkRecord (Rec.started r) (Rec.volumeChannels r)
               (Rec.volume r) mute (Rec.stride r)) a in
    if negb (Rec.started r) then (a, [])
    else (a, [EvRecordMute mute])
  | None => (a, [])
  end.

(** ** Backend selection and shutdown *)

(** [audio_init]: the entries of [LG_AudioDevs] in order, each with the
    result its [init()] returns; the first backend whose [init()] succeeds
    is selected. *)
Fixpoint audio_init (devs : list (LG_AudioDevOps * bool)) (a : AudioState)
    : AudioState :=
  match devs with
  | [] => a
  | (dev, ok) :: devs' =>
    if ok then mkAudio (Some dev) (playback a) (record a) (lastChannels a)
                 (lastSampleRate a)
    else audio_init devs' a
  end.

(** [audio_free]: the state, the engine's calls, and whether the backend's
    [free()] was called (it is the last call when it is). *)
Definition audio_free (a : AudioState) : AudioState * list Event * bool :=
  match audioDev a with
  | None => (a, [], false)
  | Some _ =>
    let '(a1, ev1) := playbackStop a in
    let '(a2, ev2) := audio_recordStop a1 in
    (mkAudio None (playback a2) (record a2) (lastChannels a2)
       (lastSampleRate a2), ev1 ++ ev2, true)
  end.

(** ** [audio_playbackData]: the source (Spice thread) data path *)

(** What the environment supplies to one call: [nanotime()], the outcome of
    the two scratch [malloc]s, and a bound on the iterations of the resampler
    driver loop (the loop only ends when libsamplerate makes progress). *)
Record Env := mkEnv {
  nanotime        : Z;
  mallocFramesIn  : bool;
  mallocFramesOut : bool;
  srcFuel         : nat
}.

Definition buf_append (rb : option RingBuffer) (data : option (list frame))
    (count : Z) : option RingBuffer :=
  option_map (fun r => ringbuffer_append r data count) rb.

(** Lines 414-436: reallocation of the scratch buffers on a period change.
    [false] when a [malloc] failed. *)
Definition allocScratch (env : Env) (frames : Z)
    (sd : Spice.PlaybackSpiceData) : bool * Spice.PlaybackSpiceData :=
  let outSize := round_int (Z2F frames * 1.1)%float in
  if negb (mallocFramesIn env) then
    (false, Spice.set_scratch None None (Spice.framesOutSize sd) frames sd)
  else if negb (mallocFramesOut env) then
    (false, Spice.set_scratch (Some []) None outSize frames sd)
  else (true, Spice.set_scratch (Some []) (Some []) outSize frames sd).

(** libsamplerate's [src_short_to_float_array] (sample values are kept as
    doubles). *)
Definition src_short_to_float_array (data : list Z) : list float :=
  map (fun s => (Z2F s / 32768.0)%float) data.

(** Lines 443-451: drain the tick queue, keeping the last two ticks. *)
Fixpoint drainTicks (q : list Tick.PlaybackDeviceTick)
    (sd : Spice.PlaybackSpiceData) : Spice.PlaybackSpiceData :=
  match q with
  | [] => sd
  | t :: q' =>
    drainTicks q'
      (Spice.set_dev (Tick.periodFrames t) (Spice.devNextTime sd)
         (Tick.nextTime t) (Spice.devNextPosition sd) (Tick.nextPosition t) sd)
  end.

Definition receiveTicks (deviceTiming : option (list Tick.PlaybackDeviceTick))
    (sd : Spice.PlaybackSpiceData) : Spice.PlaybackSpiceData :=
  match deviceTiming with
  | Some q => drainTicks q sd
  | None => sd
  end.

(** The device clock held by the source: the fields [drainTicks] writes. *)
Definition devClock (sd : Spice.PlaybackSpiceData) : Z * Z * Z * Z * Z :=
  (Spice.devPeriodFrames sd, Spice.devLastTime sd, Spice.devNextTime sd,
   Spice.devLastPosition sd, Spice.devNextPosition sd).

(** Lines 453-498: the source clock tracker.  Returns [curTime],
    [curPosition], the new state, the coupling buffer and the calls made. *)
Definition spiceClock (now frames : Z) (periodChanged init : bool)
    (sampleRate : Z) (buf : option RingBuffer) (sd : Spice.PlaybackSpiceData)
    : Z * Z * Spice.PlaybackSpiceData * option RingBuffer * list Event :=
  if periodChanged then
    let nextTime := if init then now else Spice.nextTime sd in
    let curTime := nextTime in
    let curPosition := Spice.nextPosition sd in
    let periodSec := (Z2F frames / Z2F sampleRate)%float in
    let nextTime := nextTime + llrint (periodSec * 1.0e9)%float in
    let omega := (2.0 * M_PI * bandwidth * periodSec)%float in
    (curTime, curPosition,
     Spice.set_clock periodSec nextTime (Spice.nextPosition sd)
       (M_SQRT2 * omega)%float (omega * omega)%float sd,
     buf, [])
  else
    let error := (Z2F (now - Spice.nextTime sd) * 1.0e-9)%float in
    if (0.2 <=? abs error)%float then
      let slewFrames := round_int (error * Z2F sampleRate)%float in
      let buf := buf_append buf None slewFrames in
      let curTime := now in
      let curPosition := Spice.nextPosition sd + slewFrames in
      let periodSec := (Z2F frames / Z2F sampleRate)%float in
      (curTime, curPosition,
       Spice.set_clock periodSec (now + llrint (periodSec * 1.0e9)%float)
         curPosition (Spice.b sd) (Spice.c sd) sd,
       buf, [EvBufferAppend None slewFrames])
    else
      let curTime := Spice.nextTime sd in
      let curPosition := Spice.nextPosition sd in
      (curTime, curPosition,
       Spice.set_clock
         (Spice.periodSec sd + Spice.c sd * error)%float
         (Spice.nextTime sd +
            llrint ((Spice.b sd * error + Spice.periodSec sd) * 1.0e9)%float)
         (Spice.nextPosition sd) (Spice.b sd) (Spice.c sd) sd,
       buf, [])
  .

Definition spiceJitterMs : Z := 13.

(** Lines 505-571: offset measurement and filtering.  [offsetError] is the
    local copy taken at line 506.  Returns [actualOffset] and the state. *)
Definition offsetFilter (curTime curPosition sampleRate deviceMaxPeriodFrames : Z)
    (offsetError : float) (sd : Spice.PlaybackSpiceData)
    : float * Spice.PlaybackSpiceData :=
  if Spice.devLastTime sd =? INT64_MIN then (0.0%float, sd) else
  let devPosition :=
    (Z2F (Spice.devLastPosition sd) +
     Z2F (Spice.devNextPosition sd - Spice.devLastPosition sd) *
       (Z2F (curTime - Spice.devLastTime sd) /
        Z2F (Spice.devNextTime sd - Spice.devLastTime sd)))%float in
  let targetLatencyFrames :=
    (Z2F (spiceJitterMs * sampleRate) / 1000.0 +
     Z2F deviceMaxPeriodFrames * 1.1)%float in
  let targetLatencyFrames :=
    if Spice.devPeriodFrames sd <? deviceMaxPeriodFrames
    then (targetLatencyFrames +
          Z2F (deviceMaxPeriodFrames - Spice.devPeriodFrames sd))%float
    else targetLatencyFrames in
  let actualOffset := (Z2F curPosition - devPosition)%float in
  let actualOffsetError := (- (actualOffset - targetLatencyFrames))%float in
  let error := (actualOffsetError - offsetError)%float in
  (actualOffset,
   Spice.set_offset
     (Spice.offsetError sd + (Spice.b sd * error + Spice.offsetErrorIntegral sd))%float
     (Spice.offsetErrorIntegral sd + Spice.c sd * error)%float sd).

Definition kp : float := 0.5e-6.
Definition ki : float := 1.0e-16.

(** Lines 575-581: the PI controller; returns [ratio]. *)
Definition rateController (offsetError : float) (sd : Spice.PlaybackSpiceData)
    : float * Spice.PlaybackSpiceData :=
  let ri := (Spice.ratioIntegral sd + offsetError * Spice.periodSec sd)%float in
  let piOutput := (kp * offsetError + ki * ri)%float in
  ((1.0 + piOutput)%float, Spice.set_ratioIntegral ri sd).

(** Split the output block into frames of [n] samples. *)
Fixpoint chunk_aux (n fuel : nat) (l : list float) : list frame :=
  match fuel, l with
  | O, _ | _, [] => []
  | S f, _ => firstn n l :: chunk_aux n f (skipn n l)
  end.

Definition chunk (n : nat) (l : list float) : list frame :=
  chunk_aux n (length l) l.

Definition SRC_ERR_BAD_STATE : Z := 2.

(** Outcome of the driver loop: normal exit, [return] on a resampler error,
    or the iteration bound reached. *)
Inductive LoopResult :=
| LoopDone (st : option SRC_STATE) (consumed : Z) (buf : option RingBuffer)
    (nextPosition : Z) (evs : list Event)
| LoopError (err : Z) (st : option SRC_STATE) (consumed : Z)
    (buf : option RingBuffer) (nextPosition : Z) (evs : list Event)
| LoopFuel.

Section Resample.

(** libsamplerate's [src_process]: error code, converter state after the
    call, and the [SRC_DATA] with [data_out], [input_frames_used] and
    [output_frames_gen] filled in. *)
Variable src_process : SRC_STATE -> SRC_DATA -> Z * SRC_STATE * SRC_DATA.

(** [src_process] on a NULL state reports [SRC_ERR_BAD_STATE]. *)
Definition src_process_opt (st : option SRC_STATE) (d : SRC_DATA)
    : Z * option SRC_STATE * SRC_DATA :=
  match st with
  | Some s => let '(e, s', d') := src_process s d in (e, Some s', d')
  | None => (SRC_ERR_BAD_STATE, None, d)
  end.

(** Lines 583-611: [while (consumed < frames) { ... }]. *)
Fixpoint resampleLoop (fuel : nat) (st : option SRC_STATE)
    (framesIn : list float) (channels frames framesOutSize : Z)
    (ratio : float) (consumed : Z) (buf : option RingBuffer)
    (nextPosition : Z) (evs : list Event) : LoopResult :=
  if consumed <? frames then
    match fuel with
    | O => LoopFuel
    | S fuel =>
      let srcData :=
        mkSrcData (skipn (Z.to_nat (consumed * channels)) framesIn) []
          (frames - consumed) framesOutSize 0 0 0 ratio in
      let '(error, st', out) := src_process_opt st srcData in
      if negb (error =? 0) then
        LoopError error st' consumed buf nextPosition (evs ++ [EvSrcProcess srcData])
      else
        let gen := output_frames_gen out in
        let block := Some (chunk (Z.to_nat channels) (data_out out)) in
        resampleLoop fuel st' framesIn channels frames framesOutSize ratio
          (consumed + input_frames_used out) (buf_append buf block gen)
          (nextPosition + gen)
          (evs ++ [EvSrcProcess srcData; EvBufferAppend block gen])
    end
  else LoopDone st consumed buf nextPosition evs.

(** Lines 613-634: start gating and the latency graph. *)
Definition startAndGraph (dev : LG_AudioDevOps) (actualOffset : float)
    (p : PB.Playback) : PB.Playback * list Event :=
  let sd := PB.spiceData p in
  let '(p, ev) :=
    if StreamState_beq (PB.state p) STREAM_STATE_SETUP then
      let startFrames :=
        Spice.periodFrames sd * 2 + PB.deviceMaxPeriodFrames p * 2 in
      if startFrames <=? Spice.nextPosition sd
      then (set_state STREAM_STATE_RUN p, [EvPlaybackStart])
      else (p, [])
    else (p, []) in
  let latencyFrames :=
    match playback_latency dev with
    | Some l => (actualOffset + Z2F l)%float
    | None => actualOffset
    end in
  let latency := (latencyFrames * 1000.0 / Z2F (PB.sampleRate p))%float in
  (set_buffers (PB.buffer p) (PB.deviceTiming p)
     (option_map (fun r => timings_push r latency) (PB.timings p)) p,
   ev ++ [EvInvalidateGraph]).

(** [audio_playbackData(data, size)]: [data] holds the 16-bit samples and
    [size] is the byte count.  [None] when the driver loop did not finish
    within [srcFuel env] iterations. *)
Definition audio_playbackData (env : Env) (data : list Z) (size : Z)
    (a : AudioState) : option (AudioState * list Event) :=
  match audioDev a with
  | None => Some (a, [])
  | Some dev =>
  if size =? 0 then Some (a, []) else
  if negb (STREAM_ACTIVE (PB.state (playback a))) then Some (a, []) else
  let p := playback a in
  let sd := PB.spiceData p in
  let now := nanotime env in
  let spiceStride := PB.channels p * 2 in
  let frames := size / spiceStride in
  let periodChanged := negb (frames =? Spice.periodFrames sd) in
  let init := Spice.periodFrames sd =? 0 in
  let '(ok, sd) := if periodChanged then allocScratch env frames sd
                   else (true, sd) in
  if negb ok then Some (playbackStop (set_playback (set_spiceData sd p) a))
  else
  let framesIn := src_short_to_float_array
                    (firstn (Z.to_nat (frames * PB.channels p)) data) in
  let sd := Spice.set_scratch (Some framesIn) (Spice.framesOut sd)
              (Spice.framesOutSize sd) (Spice.periodFrames sd) sd in
  let sd := receiveTicks (PB.deviceTiming p) sd in
  let deviceTiming := option_map (fun _ => []) (PB.deviceTiming p) in
  let '(curTime, curPosition, sd, buf, ev1) :=
    spiceClock now frames periodChanged init (PB.sampleRate p) (PB.buffer p) sd in
  let offsetError := Spice.offsetError sd in
  let '(actualOffset, sd) :=
    offsetFilter curTime curPosition (PB.sampleRate p)
      (PB.deviceMaxPeriodFrames p) offsetError sd in
  let '(ratio, sd) := rateController offsetError sd in
  match resampleLoop (srcFuel env) (Spice.src sd) framesIn (PB.channels p)
          frames (Spice.framesOutSize sd) ratio 0 buf (Spice.nextPosition sd) []
  with
  | LoopFuel => None
  | LoopError _ st _ buf np ev2 =>
    let sd := Spice.set_resampled np st sd in
    let p := set_buffers buf deviceTiming (PB.timings p) (set_spiceData sd p) in
    Some (set_playback p a, ev1 ++ ev2)
  | LoopDone st _ buf np ev2 =>
    let sd := Spice.set_resampled np st sd in
    let p := set_buffers buf deviceTiming (PB.timings p) (set_spiceData sd p) in
    let '(p, ev3) := startAndGraph dev actualOffset p in
    Some (set_playback p a, ev1 ++ ev2 ++ ev3)
  end
  end.

End Resample.

(** ** Spec-side reference definitions *)

(** The target latency as the spec states it (section 4.5). *)
Definition targetLatencySpec (sampleRate deviceMaxPeriodFrames devPeriodFrames : Z)
    : float :=
  let base := (Z2F (13 * sampleRate) / 1000.0 +
               Z2F deviceMaxPeriodFrames * 1.1)%float in
  if devPeriodFrames <? deviceMaxPeriodFrames
  then (base + Z2F (deviceMaxPeriodFrames - devPeriodFrames))%float
  else base.

(** Frames appended to the coupling buffer by a list of calls. *)
Fixpoint appendedFrames (evs : list Event) : Z :=
  match evs with
  | [] => 0
  | EvBufferAppend _ n :: evs' => n + appendedFrames evs'
  | _ :: evs' => appendedFrames evs'
  end.

(** The coupling buffer after performing the appends of a list of calls. *)
Fixpoint applyAppends (buf : option RingBuffer) (evs : list Event)
    : option RingBuffer :=
  match evs with
  | [] => buf
  | EvBufferAppend d n :: evs' => applyAppends (buf_append buf d n) evs'
  | _ :: evs' => applyAppends buf evs'
  end.

(** One round of the driver loop as a pair: the [SRC_DATA] passed to the
    converter and the [SRC_DATA] it filled in. *)
Definition Iteration := (SRC_DATA * SRC_DATA)%type.

(** The calls a list of successful rounds makes: the converter call, then
    the append of the block it produced ([data_out], [output_frames_gen]
    frames). *)
Definition iterEvents (channels : Z) (its : list Iteration) : list Event :=
  flat_map (fun it =>
    [EvSrcProcess (fst it);
     EvBufferAppend (Some (chunk (Z.to_nat channels) (data_out (snd it))))
       (output_frames_gen (snd it))]) its.

(** Total [input_frames_used] and [output_frames_gen] of the rounds. *)
Definition sumUsed (its : list Iteration) : Z :=
  fold_right (fun it acc => input_frames_used (snd it) + acc) 0 its.

Definition sumGen (its : list Iteration) : Z :=
  fold_right (fun it acc => output_frames_gen (snd it) + acc) 0 its.

(** The coupling buffer after appending the block of each round. *)
Definition appendIters (channels : Z) (buf : option RingBuffer)
    (its : list Iteration) : option RingBuffer :=
  fold_left (fun b it =>
    buf_append b (Some (chunk (Z.to_nat channels) (data_out (snd it))))
      (output_frames_gen (snd it))) its buf.

(** The rounds are the converter's successful answers, in order, from
    converter state [st] and [consumed] input frames: each round starts
    with [consumed < frames], passes the input from frame [consumed]
    ([frames - consumed] frames, room for [framesOutSize], the given ratio),
    gets error code 0, and the next round starts from the converter state it
    returned and [consumed + input_frames_used]. *)
Fixpoint loopRounds (sp : SRC_STATE -> SRC_DATA -> Z * SRC_STATE * SRC_DATA)
    (framesIn : list float) (channels frames framesOutSize : Z) (ratio : float)
    (st : option SRC_STATE) (consumed : Z) (its : list Iteration) : Prop :=
  match its with
  | [] => True
  | (d, out) :: its' =>
    consumed < frames /\
    data_in d = skipn (Z.to_nat (consumed * channels)) framesIn /\
    input_frames d = frames - consumed /\
    output_frames d = framesOutSize /\ src_ratio d = ratio /\
    exists st', src_process_opt sp st d = (0, st', out) /\
      loopRounds sp framesIn channels frames framesOutSize ratio st'
        (consumed + input_frames_used out) its'
  end.

(** ** Concrete configurations *)

Module Fixture.
(** A backend with every optional callback and a 1024-frame maximum period. *)
Definition dev : LG_AudioDevOps := mkAudioDev true true None 1024 true true.

Definition audio0 : AudioState :=
  mkAudio (Some dev)
    (PB.mkPlayback STREAM_STATE_STOP 0 (repeat 0 8) false 0 0 0 0
       None None None
       (Dev.mkDeviceData 0 0.0 0 0 0.0 0.0)
       (Spice.mkSpiceData None None 0 0 0.0 0 0 0.0 0.0 0 0 0 0 0
          0.0 0.0 0.0 None))
    (Rec.mkRecord false 0 (repeat 0 8) false 0) 0 0.

Definition srcNew (channels : Z) : option SRC_STATE :=
  Some (mkSrcState channels []).

(** A resampler that cannot be created. *)
Definition srcFail (channels : Z) : option SRC_STATE := None.

(** A converter at ratio 1: it passes through as many frames as fit. *)
Definition passthrough (st : SRC_STATE) (d : SRC_DATA)
    : Z * SRC_STATE * SRC_DATA :=
  let n := Z.min (input_frames d) (output_frames d) in
  (0, st,
   mkSrcData (data_in d) (firstn (Z.to_nat (n * src_channels st)) (data_in d))
     (input_frames d) (output_frames d) n n 0 (src_ratio d)).

Definition env (now : Z) : Env := mkEnv now true true 100.

(** One 960-frame stereo period (3840 bytes). *)
Definition period : list Z := repeat 1000 1920.

Definition started : AudioState := fst (audio_playbackStart srcNew 2 48000 audio0).

Definition data (now : Z) (a : AudioState) : AudioState :=
  match audio_playbackData passthrough (env now) period 3840 a with
  | Some (a', _) => a'
  | None => a
  end.

Definition pull (now frames : Z) (a : AudioState) : AudioState :=
  let '(_, _, a', _) := playbackPullFrames now frames a in a'.
(** Stream draining with one source period resident. *)
Definition draining : AudioState := audio_playbackStop (data 0 started).

(** Source state after a sink tick pair at 0 ns and 10 ms, 512-frame period. *)
Definition tickedSpice : Spice.PlaybackSpiceData :=
  Spice.set_dev 512 0 10000000 0 512 (PB.spiceData (playback started)).

(** One source period and one sink period of 960 frames, both at 0 ns. *)
Definition oneEach : AudioState := pull 0 960 (data 0 started).

Definition bufferOf (a : AudioState) : RingBuffer :=
  match PB.buffer (playback a) with
  | Some b => b
  | None => ringbuffer_newUnbounded 0
  end.

(** Four source periods at 0, 20, 40 and 60 ms, with the sink pulling one
    960-frame period at 0 ms, before the stream has been started. *)
Definition beforeStart : AudioState :=
  data 60000000 (data 40000000 (data 20000000 oneEach)).

(** One 480-frame stereo period (1920 bytes). *)
Definition halfPeriod : list Z := repeat 1000 960.

(** A record volume of two channels and a record mute cached while the
    record stream is stopped; the playback side keeps its defaults. *)
Definition recordCached : AudioState :=
  fst (audio_recordMute true (fst (audio_recordVolume 2 [100; 200] audio0))).
End Fixture.

(** * Properties *)

(** ** Helper lemmas *)

Lemma playbackPullBody_state (now frames : Z) (a : AudioState) :
  let '(_, _, a1, _) := playbackPullBody now frames a in
  PB.state (playback a1) = PB.state (playback a).
Proof.
  unfold playbackPullBody.
  destruct (PB.buffer (playback a)) as [buf|]; [|reflexivity].
  destruct (negb _).
  - destruct (ringbuffer_consume buf frames); reflexivity.
  - destruct (_ <=? _)%float.
    + destruct (ringbuffer_consume buf _) as [? buf'].
      destruct (ringbuffer_consume buf' frames); reflexivity.
    + destruct (ringbuffer_consume buf frames); reflexivity.
Qed.

Lemma playbackStop_stopped (a : AudioState) :
  PB.state (playback a) = STREAM_STATE_STOP -> playbackStop a = (a, []).
Proof.
  intros H. unfold playbackStop. rewrite H. reflexivity.
Qed.

(** ** C10 *)

(** C10: a sink pull for zero frames returns 0 at once and changes nothing:
    no frame is consumed, no tick is posted, no call is made, the state is
    the same (the DRAIN check is not reached). *)
Theorem pull_zero_frames_no_effect (now : Z) (a : AudioState) :
  playbackPullFrames now 0 a = (0, [], a, []).
Proof. reflexivity. Qed.

(** ** C7 *)

(** C7: source data arriving while the stream is not active (STOP or DRAIN)
    is dropped: [audio_playbackData] returns the state unchanged and makes no
    call (nothing appended, no resampler call, no start). *)
Theorem playbackData_inactive_dropped src_process (env : Env)
    (data : list Z) (size : Z) (a : AudioState) :
  STREAM_ACTIVE (PB.state (playback a)) = false ->
  audio_playbackData src_process env data size a = Some (a, []).
Proof.
  intros H. unfold audio_playbackData.
  destruct (audioDev a); [|reflexivity].
  destruct (size =? 0); [reflexivity|].
  rewrite H. reflexivity.
Qed.

(** ** C8 *)

(** C8: in DRAIN, a sink pull (of a non-zero frame count) that finds the
    coupling buffer count at most 0 after its read runs [playbackStop]: the
    state becomes STOP, the backend's [playback.stop] is called, the coupling
    buffer, tick queue and graph ring are freed, the resampler is deleted,
    the scratch buffers are freed and the graph is unregistered; and
    [playbackStop] in STOP changes nothing. *)
Theorem drain_empty_pull_stops (now frames : Z) (a : AudioState) :
  frames <> 0 ->
  PB.state (playback a) = STREAM_STATE_DRAIN ->
  let '(n, out, a1, ev1) := playbackPullBody now frames a in
  ringbuffer_getCount (PB.buffer (playback a1)) <= 0 ->
  let '(n', out', a2, evs) := playbackPullFrames now frames a in
  let p1 := playback a1 in
  let p2 := playback a2 in
  n' = n /\ out' = out /\
  (exists ev2, evs = ev1 ++ ev2 /\
     In EvPlaybackStop ev2 /\ In EvSrcDelete ev2 /\
     (PB.timings p1 <> None -> In EvUnregisterGraph ev2)) /\
  PB.state p2 = STREAM_STATE_STOP /\
  PB.buffer p2 = None /\ PB.deviceTiming p2 = None /\ PB.timings p2 = None /\
  Spice.src (PB.spiceData p2) = None /\
  Spice.framesIn (PB.spiceData p2) = None /\
  (Spice.framesIn (PB.spiceData p1) <> None ->
   Spice.framesOut (PB.spiceData p2) = None) /\
  (forall a', PB.state (playback a') = STREAM_STATE_STOP ->
   playbackStop a' = (a', [])).
Proof.
  intros Hf Hs.
  pose proof (playbackPullBody_state now frames a) as Hst.
  destruct (playbackPullBody now frames a) as [[[n out] a1] ev1] eqn:Hb.
  intros Hc.
  unfold playbackPullFrames.
  apply Z.eqb_neq in Hf. rewrite Hf, Hb, Hst, Hs.
  apply Z.leb_le in Hc. rewrite Hc. simpl.
  destruct (playbackStop a1) as [a2 ev2] eqn:Hstop.
  unfold playbackStop in Hstop. rewrite Hst, Hs in Hstop. simpl in Hstop.
  injection Hstop as <- <-. simpl.
  split; [reflexivity|]. split; [reflexivity|].
  split.
  { eexists. split; [reflexivity|].
    split; [left; reflexivity|]. split; [right; left; reflexivity|].
    intros Ht. destruct (PB.timings (playback a1)); [|congruence].
    right; right; left; reflexivity. }
  do 4 (split; [reflexivity|]).
  split; [destruct (Spice.framesIn (PB.spiceData (playback a1))); reflexivity|].
  split; [destruct (Spice.framesIn (PB.spiceData (playback a1))) eqn:E;
          simpl; rewrite ?E; reflexivity|].
  split.
  { intros Hin. destruct (Spice.framesIn (PB.spiceData (playback a1)));
      [reflexivity|congruence]. }
  - apply playbackStop_stopped.
Qed.

Lemma playbackData_inactive_dropped_witness :
  STREAM_ACTIVE (PB.state (playback Fixture.audio0)) = false /\
  audio_playbackData Fixture.passthrough (Fixture.env 0) Fixture.period 3840
    Fixture.audio0 = Some (Fixture.audio0, []).
Proof.
  split; [reflexivity|].
  apply playbackData_inactive_dropped. reflexivity.
Defined.

Lemma drain_empty_pull_stops_witness :
  960 <> 0 /\
  PB.state (playback Fixture.draining) = STREAM_STATE_DRAIN /\
  (let '(_, _, a1, _) := playbackPullBody 20000000 960 Fixture.draining in
   ringbuffer_getCount (PB.buffer (playback a1)) <= 0) /\
  ltac:(let t := type of (drain_empty_pull_stops 20000000 960 Fixture.draining)
        in match t with _ -> _ -> ?c => exact c end).
Proof.
  split; [lia|]. split; [vm_compute; reflexivity|].
  split; [vm_compute; congruence|].
  apply drain_empty_pull_stops; [lia|vm_compute; reflexivity].
Defined.

(** ** Frame-condition lemmas for the source path *)

Lemma allocScratch_keeps (env : Env) (frames : Z) (sd : Spice.PlaybackSpiceData) :
  let sd' := snd (allocScratch env frames sd) in
  Spice.offsetError sd' = Spice.offsetError sd /\
  Spice.ratioIntegral sd' = Spice.ratioIntegral sd /\
  Spice.periodFrames sd' = frames /\
  Spice.nextTime sd' = Spice.nextTime sd /\
  Spice.nextPosition sd' = Spice.nextPosition sd /\
  Spice.periodSec sd' = Spice.periodSec sd.
Proof.
  unfold allocScratch.
  destruct (mallocFramesIn env), (mallocFramesOut env); repeat split.
Qed.

Lemma drainTicks_keeps (q : list Tick.PlaybackDeviceTick)
    (sd : Spice.PlaybackSpiceData) :
  let sd' := drainTicks q sd in
  Spice.offsetError sd' = Spice.offsetError sd /\
  Spice.ratioIntegral sd' = Spice.ratioIntegral sd /\
  Spice.periodFrames sd' = Spice.periodFrames sd /\
  Spice.periodSec sd' = Spice.periodSec sd /\
  Spice.nextTime sd' = Spice.nextTime sd /\
  Spice.nextPosition sd' = Spice.nextPosition sd /\
  Spice.b sd' = Spice.b sd /\ Spice.c sd' = Spice.c sd /\
  Spice.src sd' = Spice.src sd /\
  Spice.framesOutSize sd' = Spice.framesOutSize sd /\
  Spice.framesIn sd' = Spice.framesIn sd.
Proof.
  revert sd. induction q as [|t q IH]; intros sd; simpl.
  - repeat split.
  - specialize (IH (Spice.set_dev (Tick.periodFrames t) (Spice.devNextTime sd)
                      (Tick.nextTime t) (Spice.devNextPosition sd)
                      (Tick.nextPosition t) sd)).
    simpl in IH. exact IH.
Qed.

Lemma receiveTicks_keeps (q : option (list Tick.PlaybackDeviceTick))
    (sd : Spice.PlaybackSpiceData) :
  let sd' := receiveTicks q sd in
  Spice.offsetError sd' = Spice.offsetError sd /\
  Spice.ratioIntegral sd' = Spice.ratioIntegral sd /\
  Spice.periodFrames sd' = Spice.periodFrames sd /\
  Spice.periodSec sd' = Spice.periodSec sd /\
  Spice.nextTime sd' = Spice.nextTime sd /\
  Spice.nextPosition sd' = Spice.nextPosition sd /\
  Spice.b sd' = Spice.b sd /\ Spice.c sd' = Spice.c sd /\
  Spice.src sd' = Spice.src sd /\
  Spice.framesOutSize sd' = Spice.framesOutSize sd /\
  Spice.framesIn sd' = Spice.framesIn sd.
Proof.
  destruct q as [q|]; [apply drainTicks_keeps|repeat split].
Qed.

Lemma spiceClock_keeps now frames periodChanged init sampleRate buf sd :
  let '(_, _, sd', _, ev) :=
    spiceClock now frames periodChanged init sampleRate buf sd in
  (forall d, ~ In (EvSrcProcess d) ev) /\ ~ In EvPlaybackStart ev /\
  Spice.offsetError sd' = Spice.offsetError sd /\
  Spice.ratioIntegral sd' = Spice.ratioIntegral sd /\
  Spice.periodFrames sd' = Spice.periodFrames sd /\
  Spice.src sd' = Spice.src sd /\
  Spice.framesOutSize sd' = Spice.framesOutSize sd /\
  Spice.devLastTime sd' = Spice.devLastTime sd /\
  Spice.devPeriodFrames sd' = Spice.devPeriodFrames sd.
Proof.
  unfold spiceClock.
  destruct periodChanged;
    [|destruct (_ <=? _)%float];
    (split; [intros d Hd; simpl in Hd; intuition discriminate|]);
    (split; [simpl; intuition discriminate|]);
    repeat split.
Qed.

Lemma offsetFilter_keeps curTime curPosition sampleRate maxp oe sd :
  let sd' := snd (offsetFilter curTime curPosition sampleRate maxp oe sd) in
  Spice.ratioIntegral sd' = Spice.ratioIntegral sd /\
  Spice.periodSec sd' = Spice.periodSec sd /\
  Spice.periodFrames sd' = Spice.periodFrames sd /\
  Spice.nextTime sd' = Spice.nextTime sd /\
  Spice.nextPosition sd' = Spice.nextPosition sd /\
  Spice.b sd' = Spice.b sd /\ Spice.c sd' = Spice.c sd /\
  Spice.src sd' = Spice.src sd /\
  Spice.framesOutSize sd' = Spice.framesOutSize sd.
Proof.
  unfold offsetFilter. destruct (_ =? INT64_MIN); repeat split.
Qed.

Lemma resampleLoop_trace sp fuel st framesIn channels frames framesOutSize
    ratio consumed buf np evs :
  match resampleLoop sp fuel st framesIn channels frames framesOutSize ratio
          consumed buf np evs with
  | LoopDone _ _ buf' np' evs' | LoopError _ _ _ buf' np' evs' =>
    exists new, evs' = evs ++ new /\
      (forall d, In (EvSrcProcess d) new -> src_ratio d = ratio) /\
      ~ In EvPlaybackStart new /\
      np' = np + appendedFrames new /\
      buf' = applyAppends buf new
  | LoopFuel => True
  end.
Proof.
  revert st consumed buf np evs.
  induction fuel as [|fuel IH]; intros st consumed buf np evs; simpl.
  - destruct (consumed <? frames); [exact I|].
    exists []. rewrite app_nil_r. simpl.
    repeat split; try tauto; lia.
  - destruct (consumed <? frames);
      [|exists []; rewrite app_nil_r; simpl; repeat split; try tauto; lia].
    destruct (src_process_opt sp st _) as [[e st'] out].
    destruct (negb (e =? 0)).
    + eexists. split; [reflexivity|]. simpl.
      split; [intros d [Hd|[]]; inversion Hd; reflexivity|].
      split; [intros [Hd|[]]; discriminate|].
      split; [lia|reflexivity].
    + match goal with
      | |- context [resampleLoop sp fuel ?s ?fi ?ch ?fr ?fo ?r ?c ?b ?n ?e] =>
        specialize (IH s c b n e);
        destruct (resampleLoop sp fuel s fi ch fr fo r c b n e); try exact I
      end;
      destruct IH as [new [Hn [Hr [Hs [Hp Hb]]]]]; rewrite <- app_assoc in Hn;
      (eexists; split; [exact Hn|]);
      (split;
       [intros d Hd; apply in_app_or in Hd; destruct Hd as [Hd|Hd];
        [simpl in Hd; destruct Hd as [Hd|[Hd|Hd]];
         [inversion Hd; reflexivity|discriminate|contradiction]
        |apply Hr; exact Hd]|]);
      (split;
       [intros Hd; apply in_app_or in Hd; destruct Hd as [Hd|Hd];
        [simpl in Hd; destruct Hd as [Hd|[Hd|Hd]];
         [discriminate|discriminate|contradiction]
        |apply Hs; exact Hd]|]);
      (simpl; split; [lia|exact Hb]).
Qed.


Lemma startAndGraph_keeps dev actualOffset p :
  let '(p', ev) := startAndGraph dev actualOffset p in
  PB.spiceData p' = PB.spiceData p /\
  PB.buffer p' = PB.buffer p /\
  PB.deviceMaxPeriodFrames p' = PB.deviceMaxPeriodFrames p /\
  (forall d, ~ In (EvSrcProcess d) ev) /\
  (In EvPlaybackStart ev <->
   PB.state p = STREAM_STATE_SETUP /\ PB.state p' = STREAM_STATE_RUN) /\
  (PB.state p' = STREAM_STATE_RUN \/ PB.state p' = PB.state p) /\
  (PB.state p = STREAM_STATE_SETUP -> PB.state p' = STREAM_STATE_RUN ->
   Spice.periodFrames (PB.spiceData p) * 2 + PB.deviceMaxPeriodFrames p * 2
   <= Spice.nextPosition (PB.spiceData p)).
Proof.
  unfold startAndGraph.
  destruct (StreamState_beq (PB.state p) STREAM_STATE_SETUP) eqn:Hs.
  - apply internal_StreamState_dec_bl in Hs.
    destruct (_ <=? _) eqn:Hn; simpl;
      do 3 (split; [reflexivity|]).
    + apply Z.leb_le in Hn.
      split; [intros d [Hd|[Hd|[]]]; discriminate|].
      split; [split; [intros _; split; [exact Hs|reflexivity]|left; reflexivity]|].
      split; [left; reflexivity|].
      intros _ _; exact Hn.
    + split; [intros d [Hd|[]]; discriminate|].
      split; [split; [intros [Hd|[]]; discriminate|intros [_ Hr]; congruence]|].
      split; [right; reflexivity|].
      intros _ Hr; congruence.
  - assert (Hn : PB.state p <> STREAM_STATE_SETUP).
    { intros E. rewrite E in Hs. discriminate. }
    simpl. do 3 (split; [reflexivity|]).
    split; [intros d [Hd|[]]; discriminate|].
    split; [split; [intros [Hd|[]]; discriminate|intros [Hp _]; contradiction]|].
    split; [right; reflexivity|].
    intros Hp; contradiction.
Qed.

Lemma startAndGraph_events dev actualOffset p :
  snd (startAndGraph dev actualOffset p) = [EvPlaybackStart; EvInvalidateGraph] \/
  snd (startAndGraph dev actualOffset p) = [EvInvalidateGraph].
Proof.
  unfold startAndGraph.
  destruct (StreamState_beq _ _); [destruct (_ <=? _)|]; simpl; tauto.
Qed.

(** Scratch allocation with both [malloc]s succeeding. *)
Lemma allocScratch_ok (env : Env) (frames : Z) (sd : Spice.PlaybackSpiceData) :
  mallocFramesIn env = true -> mallocFramesOut env = true ->
  allocScratch env frames sd =
  (true, Spice.set_scratch (Some []) (Some [])
           (round_int (Z2F frames * 1.1)%float) frames sd).
Proof.
  intros Hi Ho. unfold allocScratch. rewrite Hi, Ho. reflexivity.
Qed.

Lemma appendedFrames_app (l1 l2 : list Event) :
  appendedFrames (l1 ++ l2) = appendedFrames l1 + appendedFrames l2.
Proof.
  induction l1 as [|e l1 IH]; simpl; [reflexivity|].
  destruct e; rewrite ?IH; lia.
Qed.

(** ** C5 *)

(** C5: the resample ratio of an invocation of [audio_playbackData] is
    computed from the offset error as it was before the invocation (the
    value the offset filter is about to update): the new [ratioIntegral] is
    the old one plus [offsetError_pre * periodSec], and every [src_process]
    call of the invocation is made at ratio
    [1 + (5e-7 * offsetError_pre + 1e-16 * ratioIntegral)]. *)
Theorem ratio_uses_pre_update_offsetError sp (env : Env) (data : list Z)
    (size : Z) (a : AudioState) :
  audioDev a <> None -> size <> 0 ->
  STREAM_ACTIVE (PB.state (playback a)) = true ->
  mallocFramesIn env = true -> mallocFramesOut env = true ->
  match audio_playbackData sp env data size a with
  | Some (a', evs) =>
    let oe := Spice.offsetError (PB.spiceData (playback a)) in
    let sd' := PB.spiceData (playback a') in
    Spice.ratioIntegral sd' =
      (Spice.ratioIntegral (PB.spiceData (playback a)) +
       oe * Spice.periodSec sd')%float /\
    (forall d, In (EvSrcProcess d) evs ->
     src_ratio d = (1.0 + (5e-7 * oe + 1e-16 * Spice.ratioIntegral sd'))%float)
  | None => True
  end.
Proof.
  intros Hd Hsz Hact Hmi Hmo.
  unfold audio_playbackData.
  destruct (audioDev a) as [dev|]; [|congruence].
  apply Z.eqb_neq in Hsz. rewrite Hsz, Hact. cbv beta iota zeta.
  set (sd0 := PB.spiceData (playback a)).
  set (frames := size / (PB.channels (playback a) * 2)).
  destruct (if negb (frames =? Spice.periodFrames sd0)
            then allocScratch env frames sd0 else (true, sd0))
    as [ok sd1] eqn:Halloc.
  assert (ok = true /\ Spice.offsetError sd1 = Spice.offsetError sd0 /\
          Spice.ratioIntegral sd1 = Spice.ratioIntegral sd0) as [-> [Ho1 Hr1]].
  { destruct (negb _).
    - rewrite allocScratch_ok in Halloc by assumption.
      injection Halloc as <- <-. tauto.
    - injection Halloc as <- <-. tauto. }
  simpl negb. cbv iota.
  set (fin := src_short_to_float_array _).
  set (sdS := Spice.set_scratch (Some fin) _ _ _ sd1).
  pose proof (receiveTicks_keeps (PB.deviceTiming (playback a)) sdS) as K.
  destruct K as [Ho2 [Hr2 _]]. simpl in Ho2, Hr2.
  set (sdD := receiveTicks _ sdS) in *. clearbody sdD.
  pose proof (spiceClock_keeps (nanotime env) frames
    (negb (frames =? Spice.periodFrames sd0)) (Spice.periodFrames sd0 =? 0)
    (PB.sampleRate (playback a)) (PB.buffer (playback a)) sdD) as Kc.
  destruct (spiceClock _ _ _ _ _ _ sdD) as [[[[curTime curPos] sdC] bufC] ev1].
  destruct Kc as [Hn1 [_ [Ho3 [Hr3 _]]]].
  pose proof (offsetFilter_keeps curTime curPos (PB.sampleRate (playback a))
    (PB.deviceMaxPeriodFrames (playback a)) (Spice.offsetError sdC) sdC) as Kf.
  destruct (offsetFilter _ _ _ _ _ sdC) as [ao sdF].
  simpl in Kf. destruct Kf as [Hr4 [Hp4 _]].
  unfold rateController. cbv zeta.
  match goal with
  | |- context [resampleLoop ?s1 ?s2 ?s3 ?s4 ?s5 ?s6 ?s7 ?s8 ?s9 ?s10 ?s11 ?s12] =>
    pose proof (resampleLoop_trace s1 s2 s3 s4 s5 s6 s7 s8 s9 s10 s11 s12) as Kl;
    destruct (resampleLoop s1 s2 s3 s4 s5 s6 s7 s8 s9 s10 s11 s12)
      as [st cons buf np ev2|e st cons buf np ev2|]; [| |exact I]
  end.
  - match goal with
    | |- context [startAndGraph ?x ?y ?z] =>
      pose proof (startAndGraph_keeps x y z) as Ks;
      destruct (startAndGraph x y z) as [p' ev3]
    end.
    destruct Ks as [Hsd [_ [_ [Hno _]]]].
    simpl. rewrite Hsd. simpl.
    rewrite Hr4, Hr3, Hr2, Hr1, Ho3, Ho2, Ho1.
    split; [reflexivity|].
    intros d Hin. apply in_app_or in Hin. destruct Hin as [Hin|Hin];
      [exfalso; exact (Hn1 d Hin)|].
    apply in_app_or in Hin. destruct Hin as [Hin|Hin];
      [|exfalso; exact (Hno d Hin)].
    destruct Kl as [new [Hnew [Hr _]]]. simpl in Hnew. subst ev2.
    rewrite (Hr d Hin), Hr4, Hr3, Hr2, Hr1, Ho3, Ho2, Ho1. reflexivity.
  - simpl. rewrite Hr4, Hr3, Hr2, Hr1, Ho3, Ho2, Ho1.
    split; [reflexivity|].
    intros d Hin. apply in_app_or in Hin. destruct Hin as [Hin|Hin];
      [exfalso; exact (Hn1 d Hin)|].
    destruct Kl as [new [Hnew [Hr _]]]. simpl in Hnew. subst ev2.
    rewrite (Hr d Hin), Hr4, Hr3, Hr2, Hr1, Ho3, Ho2, Ho1. reflexivity.
Qed.

Lemma ratio_uses_pre_update_offsetError_witness :
  audioDev (Fixture.data 0 Fixture.started) <> None /\ 3840 <> 0 /\
  STREAM_ACTIVE (PB.state (playback (Fixture.data 0 Fixture.started))) = true /\
  mallocFramesIn (Fixture.env 20000000) = true /\
  mallocFramesOut (Fixture.env 20000000) = true /\
  ltac:(let t := type of (ratio_uses_pre_update_offsetError Fixture.passthrough
                   (Fixture.env 20000000) Fixture.period 3840
                   (Fixture.data 0 Fixture.started)) in
        match t with _ -> _ -> _ -> _ -> _ -> ?c => exact c end).
Proof.
  split; [vm_compute; discriminate|]. split; [lia|].
  split; [vm_compute; reflexivity|]. split; [reflexivity|]. split; [reflexivity|].
  apply ratio_uses_pre_update_offsetError;
    [vm_compute; discriminate|lia|vm_compute; reflexivity|reflexivity|reflexivity].
Defined.

(** ** C4 *)

(** C4: once a sink tick pair has been observed ([devLastTime <> INT64_MIN]),
    the offset filter of [audio_playbackData] measures the offset error
    against the target latency [13 * sampleRate / 1000 +
    deviceMaxPeriodFrames * 1.1], raised by [deviceMaxPeriodFrames -
    devPeriodFrames] when [devPeriodFrames < deviceMaxPeriodFrames]
    ([targetLatencySpec]): the filter's update of [offsetError] and
    [offsetErrorIntegral] is the one driven by that target. *)
Theorem offset_filter_target_latency curTime curPosition sampleRate maxp oe
    (sd : Spice.PlaybackSpiceData) :
  Spice.devLastTime sd <> INT64_MIN ->
  let '(actualOffset, sd') :=
    offsetFilter curTime curPosition sampleRate maxp oe sd in
  let target := targetLatencySpec sampleRate maxp (Spice.devPeriodFrames sd) in
  let error := (- (actualOffset - target) - oe)%float in
  Spice.offsetError sd' =
    (Spice.offsetError sd + (Spice.b sd * error + Spice.offsetErrorIntegral sd))%float /\
  Spice.offsetErrorIntegral sd' =
    (Spice.offsetErrorIntegral sd + Spice.c sd * error)%float.
Proof.
  intros H. unfold offsetFilter, targetLatencySpec, spiceJitterMs.
  apply Z.eqb_neq in H. rewrite H.
  destruct (Spice.devPeriodFrames sd <? maxp); split; reflexivity.
Qed.

Lemma offset_filter_target_latency_witness :
  Spice.devLastTime Fixture.tickedSpice <> INT64_MIN /\
  ltac:(let t := type of (offset_filter_target_latency 20000000 960 48000 1024
                            0.0%float Fixture.tickedSpice) in
        match t with _ -> ?c => exact c end).
Proof.
  split; [vm_compute; discriminate|].
  apply offset_filter_target_latency. vm_compute; discriminate.
Defined.

(** ** C6 *)

(** The driver loop's [consumed]: it reaches [frames] exactly on a normal
    exit, and an error exit happens only on a non-zero error code, with
    [consumed < frames], provided the converter never reports more input
    used than it was given. *)
Lemma resampleLoop_consumed sp
    (Hsp : forall s d e s' d', sp s d = (e, s', d') -> e = 0 ->
           input_frames_used d' <= input_frames d)
    fuel st framesIn channels frames framesOutSize ratio consumed buf np evs :
  consumed <= frames ->
  match resampleLoop sp fuel st framesIn channels frames framesOutSize ratio
          consumed buf np evs with
  | LoopDone _ consumed' _ _ _ => consumed' = frames
  | LoopError err _ consumed' _ _ _ => err <> 0 /\ consumed' < frames
  | LoopFuel => True
  end.
Proof.
  revert st consumed buf np evs.
  induction fuel as [|fuel IH]; intros st consumed buf np evs Hc; simpl.
  - destruct (consumed <? frames) eqn:E; [exact I|].
    apply Z.ltb_ge in E. lia.
  - destruct (consumed <? frames) eqn:E; [|apply Z.ltb_ge in E; lia].
    apply Z.ltb_lt in E.
    destruct (src_process_opt sp st _) as [[e st'] out] eqn:Hp.
    destruct (negb (e =? 0)) eqn:He.
    + apply negb_true_iff, Z.eqb_neq in He. split; [exact He|exact E].
    + apply negb_false_iff, Z.eqb_eq in He. subst e.
      apply IH.
      unfold src_process_opt in Hp. destruct st as [s|].
      * destruct (sp s _) as [[e0 s0] d0] eqn:Hs.
        injection Hp as -> _ <-.
        apply Hsp in Hs; [simpl in Hs; lia|reflexivity].
      * injection Hp as He _ _. discriminate.
Qed.

Lemma resampleLoop_rounds sp fuel st framesIn channels frames framesOutSize
    ratio consumed buf np evs :
  match resampleLoop sp fuel st framesIn channels frames framesOutSize ratio
          consumed buf np evs with
  | LoopDone _ consumed' buf' np' evs' =>
    exists its,
      loopRounds sp framesIn channels frames framesOutSize ratio st consumed its /\
      evs' = evs ++ iterEvents channels its /\
      consumed' = consumed + sumUsed its /\ ~ consumed' < frames /\
      np' = np + sumGen its /\ buf' = appendIters channels buf its
  | LoopError err st' consumed' buf' np' evs' =>
    exists its d,
      loopRounds sp framesIn channels frames framesOutSize ratio st consumed its /\
      evs' = evs ++ iterEvents channels its ++ [EvSrcProcess d] /\
      consumed' = consumed + sumUsed its /\ consumed' < frames /\
      np' = np + sumGen its /\ buf' = appendIters channels buf its /\
      data_in d = skipn (Z.to_nat (consumed' * channels)) framesIn /\
      input_frames d = frames - consumed' /\ src_ratio d = ratio /\
      err <> 0 /\ exists s out, src_process_opt sp s d = (err, st', out)
  | LoopFuel => True
  end.
Proof.
  revert st consumed buf np evs.
  induction fuel as [|fuel IH]; intros st consumed buf np evs; simpl.
  - destruct (consumed <? frames) eqn:E; [exact I|].
    exists []. rewrite app_nil_r. simpl. apply Z.ltb_ge in E.
    repeat split; lia.
  - destruct (consumed <? frames) eqn:E.
    2:{ exists []. rewrite app_nil_r. simpl. apply Z.ltb_ge in E.
        repeat split; lia. }
    apply Z.ltb_lt in E.
    set (d := mkSrcData (skipn (Z.to_nat (consumed * channels)) framesIn) []
                (frames - consumed) framesOutSize 0 0 0 ratio).
    destruct (src_process_opt sp st d) as [[e st'] out] eqn:Hp.
    destruct (e =? 0) eqn:He; simpl negb; cbv iota.
    + apply Z.eqb_eq in He. subst e.
      specialize (IH st' (consumed + input_frames_used out)
        (buf_append buf (Some (chunk (Z.to_nat channels) (data_out out)))
           (output_frames_gen out))
        (np + output_frames_gen out)
        (evs ++ [EvSrcProcess d;
                 EvBufferAppend (Some (chunk (Z.to_nat channels) (data_out out)))
                   (output_frames_gen out)])).
      destruct (resampleLoop _ _ _ _ _ _ _ _ _ _ _ _)
        as [s2 c2 b2 n2 e2|err s2 c2 b2 n2 e2|]; [| |exact I].
      * destruct IH as [its [Hr [He2 [Hc [Hlt [Hn Hb]]]]]].
        exists ((d, out) :: its). simpl.
        split; [repeat split; try reflexivity; try lia;
                exists st'; split; [exact Hp|exact Hr]|].
        split; [rewrite He2, <- app_assoc; reflexivity|].
        repeat split; [lia|lia|lia|exact Hb].
      * destruct IH as [its [d2 [Hr [He2 [Hc [Hlt [Hn [Hb Hrest]]]]]]]].
        exists ((d, out) :: its), d2. simpl.
        split; [repeat split; try reflexivity; try lia;
                exists st'; split; [exact Hp|exact Hr]|].
        split; [rewrite He2, <- app_assoc; reflexivity|].
        split; [lia|]. split; [lia|]. split; [lia|]. split; [exact Hb|].
        exact Hrest.
    + exists [], d. simpl. rewrite ?app_nil_r.
      apply Z.eqb_neq in He.
      repeat split; try lia.
      exists st, out. exact Hp.
Qed.

(** C6: with a converter that never reports more input used than it was
    given, the resampler driver loop of [audio_playbackData], started at
    [consumed = 0 <= frames], is a sequence of successful converter rounds:
    round [k] passes the input from frame [consumed_k] with [frames -
    consumed_k] frames and the ratio, and [consumed] grows by the round's
    [input_frames_used].  Each round's produced block ([data_out],
    [output_frames_gen] frames) is appended to the coupling buffer right
    after the call, and [nextPosition] advances by the sum of
    [output_frames_gen].  The loop leaves normally only with [consumed =
    frames]; the only other exit is a converter call returning a non-zero
    error code, with [consumed < frames] and nothing appended for it. *)
Theorem resample_loop_completes sp
    (Hsp : forall s d e s' d', sp s d = (e, s', d') -> e = 0 ->
           input_frames_used d' <= input_frames d)
    fuel st framesIn channels frames framesOutSize ratio buf np :
  0 <= frames ->
  match resampleLoop sp fuel st framesIn channels frames framesOutSize ratio
          0 buf np [] with
  | LoopDone _ consumed buf' np' evs =>
    exists its,
      loopRounds sp framesIn channels frames framesOutSize ratio st 0 its /\
      evs = iterEvents channels its /\
      consumed = sumUsed its /\ consumed = frames /\
      np' = np + sumGen its /\ buf' = appendIters channels buf its
  | LoopError err st' consumed buf' np' evs =>
    exists its d,
      loopRounds sp framesIn channels frames framesOutSize ratio st 0 its /\
      evs = iterEvents channels its ++ [EvSrcProcess d] /\
      consumed = sumUsed its /\ consumed < frames /\
      np' = np + sumGen its /\ buf' = appendIters channels buf its /\
      data_in d = skipn (Z.to_nat (consumed * channels)) framesIn /\
      input_frames d = frames - consumed /\ src_ratio d = ratio /\
      err <> 0 /\ exists s out, src_process_opt sp s d = (err, st', out)
  | LoopFuel => True
  end.
Proof.
  intros Hf.
  pose proof (resampleLoop_consumed sp Hsp fuel st framesIn channels frames
                framesOutSize ratio 0 buf np [] Hf) as Kc.
  pose proof (resampleLoop_rounds sp fuel st framesIn channels frames
                framesOutSize ratio 0 buf np []) as Kr.
  destruct (resampleLoop _ _ _ _ _ _ _ _ _ _ _ _); [| |exact I].
  - destruct Kr as [its [Hr [He [Hc [_ [Hn Hb]]]]]].
    exists its. simpl in He. repeat split; try assumption; lia.
  - destruct Kr as [its [d [Hr [He [Hc Hrest]]]]].
    exists its, d. simpl in He. split; [exact Hr|]. split; [exact He|].
    split; [lia|exact Hrest].
Qed.

Lemma passthrough_contract : forall s d e s' d',
  Fixture.passthrough s d = (e, s', d') -> e = 0 ->
  input_frames_used d' <= input_frames d.
Proof.
  intros s d e s' d' H _. unfold Fixture.passthrough in H.
  injection H as _ _ <-. simpl. lia.
Defined.

Lemma resample_loop_completes_witness :
  (forall s d e s' d', Fixture.passthrough s d = (e, s', d') -> e = 0 ->
   input_frames_used d' <= input_frames d) /\
  0 <= 960 /\
  ltac:(let t := type of (resample_loop_completes Fixture.passthrough
                   passthrough_contract 100 (Fixture.srcNew 2)
                   (src_short_to_float_array Fixture.period) 2 960 1056 1.0%float
                   (Some (ringbuffer_newUnbounded 2)) 0) in
        match t with _ -> ?c => exact c end).
Proof.
  split; [exact passthrough_contract|]. split; [lia|].
  apply resample_loop_completes; [exact passthrough_contract|lia].
Defined.

(** ** C2 *)

(** C2: a same-period tick whose clock error [e = (now - nextTime) * 1e-9]
    has [|e| >= 0.2] slews both trackers, with [slewFrames = round(e *
    sampleRate)].  Sink ([playbackPullFrames]): the first call discards
    [slewFrames] frames from the coupling buffer ([consume] with a NULL
    destination) before the period is read, [periodSec] is reset to
    [frames / sampleRate], [nextTime = now + periodSec * 1e9] and
    [nextPosition] grows by [slewFrames + frames].  Source (the tracker of
    [audio_playbackData]): [slewFrames] frames of silence are appended (the
    only call), [curTime = now], [curPosition = nextPosition + slewFrames],
    [periodSec = frames / sampleRate], [nextTime = now + periodSec * 1e9]
    and [nextPosition = curPosition]. *)
Theorem slew_resets_clock (now frames : Z) (a : AudioState) (buf : RingBuffer)
    (init : bool) (sampleRate : Z) (sbuf : option RingBuffer)
    (sd : Spice.PlaybackSpiceData) :
  frames <> 0 ->
  PB.buffer (playback a) = Some buf ->
  frames = Dev.periodFrames (PB.deviceData (playback a)) ->
  (0.2 <=? abs (Z2F (now - Dev.nextTime (PB.deviceData (playback a))) * 1.0e-9))%float
    = true ->
  (0.2 <=? abs (Z2F (now - Spice.nextTime sd) * 1.0e-9))%float = true ->
  (let d := PB.deviceData (playback a) in
   let sr := PB.sampleRate (playback a) in
   let e := (Z2F (now - Dev.nextTime d) * 1.0e-9)%float in
   let slewFrames := round_int (e * Z2F sr)%float in
   let '(_, out, a', evs) := playbackPullFrames now frames a in
   let d' := PB.deviceData (playback a') in
   (exists evs', evs = EvBufferConsume false slewFrames :: evs') /\
   out = firstn (Z.to_nat frames)
           (skipn (Z.to_nat slewFrames) (rb_frames buf)) /\
   Dev.periodSec d' = (Z2F frames / Z2F sr)%float /\
   Dev.nextTime d' = now + llrint (Dev.periodSec d' * 1.0e9)%float /\
   Dev.nextPosition d' = Dev.nextPosition d + (slewFrames + frames)) /\
  (let e := (Z2F (now - Spice.nextTime sd) * 1.0e-9)%float in
   let slewFrames := round_int (e * Z2F sampleRate)%float in
   let '(curTime, curPosition, sd', sbuf', evs) :=
     spiceClock now frames false init sampleRate sbuf sd in
   evs = [EvBufferAppend None slewFrames] /\
   sbuf' = buf_append sbuf None slewFrames /\
   curTime = now /\
   curPosition = Spice.nextPosition sd + slewFrames /\
   Spice.periodSec sd' = (Z2F frames / Z2F sampleRate)%float /\
   Spice.nextTime sd' = now + llrint (Spice.periodSec sd' * 1.0e9)%float /\
   Spice.nextPosition sd' = curPosition).
Proof.
  intros Hf Hb Hp Hs Hs'. split.
  - unfold playbackPullFrames, playbackPullBody.
    apply Z.eqb_neq in Hf. rewrite Hf, Hb, <- Hp, Z.eqb_refl, Hs. simpl.
    destruct (StreamState_beq _ _ && _); [|simpl; repeat split; eexists; reflexivity].
    destruct (playbackStop _) as [a2 ev2] eqn:Hstop.
    unfold playbackStop in Hstop.
    destruct (StreamState_beq _ _); injection Hstop as <- <-;
      simpl; repeat split; eexists; reflexivity.
  - unfold spiceClock. rewrite Hs'. repeat split.
Qed.

Lemma slew_resets_clock_witness :
  960 <> 0 /\
  PB.buffer (playback Fixture.oneEach) = Some (Fixture.bufferOf Fixture.oneEach) /\
  960 = Dev.periodFrames (PB.deviceData (playback Fixture.oneEach)) /\
  (0.2 <=? abs (Z2F (500000000 - Dev.nextTime (PB.deviceData (playback Fixture.oneEach)))
                * 1.0e-9))%float = true /\
  (0.2 <=? abs (Z2F (500000000 - Spice.nextTime (PB.spiceData (playback Fixture.oneEach)))
                * 1.0e-9))%float = true /\
  ltac:(let t := type of (slew_resets_clock 500000000 960 Fixture.oneEach
                   (Fixture.bufferOf Fixture.oneEach) false 48000
                   (PB.buffer (playback Fixture.oneEach))
                   (PB.spiceData (playback Fixture.oneEach))) in
        match t with _ -> _ -> _ -> _ -> _ -> ?c => exact c end).
Proof.
  split; [lia|].
  split; [vm_compute; reflexivity|].
  split; [vm_compute; reflexivity|].
  split; [vm_compute; reflexivity|].
  split; [vm_compute; reflexivity|].
  apply slew_resets_clock;
    [lia|vm_compute; reflexivity|vm_compute; reflexivity
    |vm_compute; reflexivity|vm_compute; reflexivity].
Defined.

(** ** C9 *)

(** C9: [audio_recordStart] reapplies the cached volume and mute of the
    PLAYBACK stream to the record callbacks.  After [audio_recordVolume 2
    [100; 200]] and [audio_recordMute true] (both cached on the record side,
    the record stream being stopped), the record start calls
    [record.volume] with the playback's 0 channels and zero levels and
    [record.mute(false)], the playback's mute flag, instead of the cached
    record values. *)
Theorem recordStart_reapplies_playback_state :
  Rec.volumeChannels (record Fixture.recordCached) = 2 /\
  firstn 2 (Rec.volume (record Fixture.recordCached)) = [100; 200] /\
  Rec.mute (record Fixture.recordCached) = true /\
  snd (audio_recordStart 2 48000 Fixture.recordCached) =
    [EvRecordStart 2 48000; EvRecordVolume 0 (repeat 0 8); EvRecordMute false].
Proof. vm_compute. repeat split. Qed.

(** ** C1 *)

(** C1, both trackers on a period-size change that is not the first tick
    ([frames <> periodFrames <> 0]).  Sink ([playbackPullFrames]): as the
    claim states, [nextTime] advances by the OLD [periodSec], [periodFrames]
    and [periodSec] take the new period, [b = sqrt(2) * omega] and
    [c = omega^2] with [omega = 2 * pi * 0.05 * periodSec], and
    [nextPosition] grows by [frames].  Source ([audio_playbackData]):
    [periodFrames] and [periodSec] take the new period and [(b, c)] are
    recomputed the same way, but [nextTime] advances by the NEW [periodSec],
    and the tracker does not add [frames] to [nextPosition]: by the end of
    the invocation [nextPosition] has grown only by the frames the resampler
    appended to the coupling buffer. *)
Theorem period_change_updates (now frames : Z) (aSink : AudioState) sp
    (env : Env) (data : list Z) (size : Z) (aSrc : AudioState) :
  frames <> 0 ->
  PB.buffer (playback aSink) <> None ->
  frames <> Dev.periodFrames (PB.deviceData (playback aSink)) ->
  Dev.periodFrames (PB.deviceData (playback aSink)) <> 0 ->
  audioDev aSrc <> None -> size <> 0 ->
  STREAM_ACTIVE (PB.state (playback aSrc)) = true ->
  mallocFramesIn env = true -> mallocFramesOut env = true ->
  size / (PB.channels (playback aSrc) * 2) <>
    Spice.periodFrames (PB.spiceData (playback aSrc)) ->
  Spice.periodFrames (PB.spiceData (playback aSrc)) <> 0 ->
  (let d := PB.deviceData (playback aSink) in
   let '(_, _, a', _) := playbackPullFrames now frames aSink in
   let d' := PB.deviceData (playback a') in
   let omega := (2.0 * M_PI * 0.05 * Dev.periodSec d')%float in
   Dev.periodFrames d' = frames /\
   Dev.periodSec d' = (Z2F frames / Z2F (PB.sampleRate (playback aSink)))%float /\
   Dev.nextTime d' = Dev.nextTime d + llrint (Dev.periodSec d * 1.0e9)%float /\
   Dev.b d' = (M_SQRT2 * omega)%float /\ Dev.c d' = (omega * omega)%float /\
   Dev.nextPosition d' = Dev.nextPosition d + frames) /\
  (let sd := PB.spiceData (playback aSrc) in
   let frames := size / (PB.channels (playback aSrc) * 2) in
   match audio_playbackData sp env data size aSrc with
   | Some (a', evs) =>
     let sd' := PB.spiceData (playback a') in
     let omega := (2.0 * M_PI * 0.05 * Spice.periodSec sd')%float in
     Spice.periodFrames sd' = frames /\
     Spice.periodSec sd' =
       (Z2F frames / Z2F (PB.sampleRate (playback aSrc)))%float /\
     Spice.nextTime sd' =
       Spice.nextTime sd + llrint (Spice.periodSec sd' * 1.0e9)%float /\
     Spice.b sd' = (M_SQRT2 * omega)%float /\ Spice.c sd' = (omega * omega)%float /\
     Spice.nextPosition sd' = Spice.nextPosition sd + appendedFrames evs
   | None => True
   end).
Proof.
  intros Hf Hbuf Hch Hni Hd Hsz Hact Hmi Hmo Hsch Hsni. split.
  - unfold playbackPullFrames, playbackPullBody.
    apply Z.eqb_neq in Hf. rewrite Hf.
    destruct (PB.buffer (playback aSink)) as [buf|]; [|congruence].
    apply Z.eqb_neq in Hch. rewrite Hch.
    apply Z.eqb_neq in Hni. rewrite Hni. simpl.
    destruct (StreamState_beq _ _ && _); [|repeat split].
    destruct (playbackStop _) as [a2 ev2] eqn:Hstop.
    unfold playbackStop in Hstop.
    destruct (StreamState_beq _ _); injection Hstop as <- <-; repeat split.
  - unfold audio_playbackData.
    destruct (audioDev aSrc) as [dev|]; [|congruence].
    apply Z.eqb_neq in Hsz. rewrite Hsz, Hact. cbv beta iota zeta.
    apply Z.eqb_neq in Hsch. rewrite Hsch.
    apply Z.eqb_neq in Hsni. rewrite Hsni.
    simpl negb. rewrite allocScratch_ok by assumption. cbv iota.
    set (sd0 := PB.spiceData (playback aSrc)).
    set (frames0 := size / (PB.channels (playback aSrc) * 2)).
    set (fin := src_short_to_float_array _).
    set (sdS := Spice.set_scratch (Some fin) _ _ _ _).
    pose proof (receiveTicks_keeps (PB.deviceTiming (playback aSrc)) sdS) as K.
    destruct K as [_ [_ [Hpf [_ [Hnt [Hnp [_ [_ _]]]]]]]]. simpl in Hpf, Hnt, Hnp.
    set (sdD := receiveTicks _ sdS) in *. clearbody sdD.
    unfold spiceClock. cbv iota zeta.
    match goal with
    | |- context [offsetFilter ?x1 ?x2 ?x3 ?x4 ?x5 ?x6] =>
      pose proof (offsetFilter_keeps x1 x2 x3 x4 x5 x6) as Kf;
      destruct (offsetFilter x1 x2 x3 x4 x5 x6) as [ao sdF]
    end.
    simpl in Kf. destruct Kf as [_ [Hps [Hpf' [Hnt' [Hnp' [Hb' [Hc' _]]]]]]].
    unfold rateController. cbv zeta.
    match goal with
    | |- context [resampleLoop ?s1 ?s2 ?s3 ?s4 ?s5 ?s6 ?s7 ?s8 ?s9 ?s10 ?s11 ?s12] =>
      pose proof (resampleLoop_trace s1 s2 s3 s4 s5 s6 s7 s8 s9 s10 s11 s12) as Kl;
      destruct (resampleLoop s1 s2 s3 s4 s5 s6 s7 s8 s9 s10 s11 s12)
        as [st cons buf np ev2|e st cons buf np ev2|]; [| |exact I]
    end;
    destruct Kl as [new [Hnew [_ [_ [Hnpl _]]]]]; simpl in Hnew; subst ev2.
    + match goal with
      | |- context [startAndGraph ?x ?y ?z] =>
        pose proof (startAndGraph_keeps x y z) as Ks;
        pose proof (startAndGraph_events x y z) as Ke;
        destruct (startAndGraph x y z) as [p' ev3]
      end.
      destruct Ks as [Hsd _]. simpl in Ke.
      simpl. rewrite Hsd. simpl.
      rewrite Hnpl. simpl. rewrite Hps, Hpf', Hnt', Hnp', Hb', Hc', Hpf, Hnt, Hnp.
      rewrite appendedFrames_app.
      repeat split.
      destruct Ke as [-> | ->]; simpl; rewrite ?Z.add_0_r, ?Z.add_assoc;
        reflexivity.
    + simpl.
      rewrite Hnpl. simpl. rewrite Hps, Hpf', Hnt', Hnp', Hb', Hc', Hpf, Hnt, Hnp.
      repeat split.
Qed.

(** C1 fails on the source tracker: after a first 960-frame period at 0 ns
    ([nextTime = 20 ms]), a 480-frame period at 20 ms moves [nextTime] to
    30 ms, by the new [periodSec] (10 ms), not by the old one (20 ms). *)
Lemma period_change_old_periodSec_cex :
  Spice.periodFrames (PB.spiceData (playback (Fixture.data 0 Fixture.started)))
    = 960 /\
  Spice.nextTime (PB.spiceData (playback (Fixture.data 0 Fixture.started)))
    = 20000000 /\
  match audio_playbackData Fixture.passthrough (Fixture.env 20000000)
          Fixture.halfPeriod 1920 (Fixture.data 0 Fixture.started) with
  | Some (a2, _) =>
    Spice.periodFrames (PB.spiceData (playback a2)) = 480 /\
    Spice.nextTime (PB.spiceData (playback a2)) = 30000000 /\
    Spice.nextTime (PB.spiceData (playback a2)) <>
      Spice.nextTime (PB.spiceData (playback (Fixture.data 0 Fixture.started))) +
      llrint (Spice.periodSec
                (PB.spiceData (playback (Fixture.data 0 Fixture.started)))
              * 1.0e9)%float
  | None => False
  end.
Proof.
  vm_compute. split; [reflexivity|]. split; [reflexivity|].
  split; [reflexivity|]. split; [reflexivity|discriminate].
Qed.

Lemma period_change_updates_witness :
  480 <> 0 /\
  PB.buffer (playback Fixture.oneEach) <> None /\
  480 <> Dev.periodFrames (PB.deviceData (playback Fixture.oneEach)) /\
  Dev.periodFrames (PB.deviceData (playback Fixture.oneEach)) <> 0 /\
  audioDev (Fixture.data 0 Fixture.started) <> None /\ 1920 <> 0 /\
  STREAM_ACTIVE (PB.state (playback (Fixture.data 0 Fixture.started))) = true /\
  mallocFramesIn (Fixture.env 20000000) = true /\
  mallocFramesOut (Fixture.env 20000000) = true /\
  1920 / (PB.channels (playback (Fixture.data 0 Fixture.started)) * 2) <>
    Spice.periodFrames (PB.spiceData (playback (Fixture.data 0 Fixture.started))) /\
  Spice.periodFrames (PB.spiceData (playback (Fixture.data 0 Fixture.started))) <> 0 /\
  ltac:(let t := type of (period_change_updates 40000000 480 Fixture.oneEach
                   Fixture.passthrough (Fixture.env 20000000) Fixture.halfPeriod
                   1920 (Fixture.data 0 Fixture.started)) in
        match t with _ -> _ -> _ -> _ -> _ -> _ -> _ -> _ -> _ -> _ -> _ -> ?c =>
          exact c end).
Proof.
  split; [lia|].
  split; [vm_compute; discriminate|].
  split; [vm_compute; discriminate|].
  split; [vm_compute; discriminate|].
  split; [vm_compute; discriminate|].
  split; [lia|].
  split; [vm_compute; reflexivity|].
  split; [reflexivity|]. split; [reflexivity|].
  split; [vm_compute; discriminate|].
  split; [vm_compute; discriminate|].
  apply period_change_updates;
    [lia|vm_compute; discriminate|vm_compute; discriminate
    |vm_compute; discriminate|vm_compute; discriminate|lia
    |vm_compute; reflexivity|reflexivity|reflexivity
    |vm_compute; discriminate|vm_compute; discriminate].
Defined.

Lemma playbackStop_facts (a : AudioState) :
  let '(a', ev) := playbackStop a in
  ~ In EvPlaybackStart ev /\ PB.state (playback a') = STREAM_STATE_STOP.
Proof.
  unfold playbackStop.
  destruct (StreamState_beq (PB.state (playback a)) STREAM_STATE_STOP) eqn:Hs.
  - apply internal_StreamState_dec_bl in Hs. split; [simpl; tauto|exact Hs].
  - simpl. split; [|reflexivity].
    destruct (PB.timings (playback a)); simpl; intuition discriminate.
Qed.

Lemma playbackPullFrames_no_start (now frames : Z) (a : AudioState) :
  let '(_, _, a', evs) := playbackPullFrames now frames a in
  ~ In EvPlaybackStart evs /\
  (PB.state (playback a') = PB.state (playback a) \/
   PB.state (playback a') = STREAM_STATE_STOP).
Proof.
  unfold playbackPullFrames.
  destruct (frames =? 0); [split; [simpl; tauto|left; reflexivity]|].
  pose proof (playbackPullBody_state now frames a) as Hst.
  assert (Hev : let '(_, _, _, ev1) := playbackPullBody now frames a in
                ~ In EvPlaybackStart ev1).
  { unfold playbackPullBody.
    destruct (PB.buffer (playback a)) as [buf|]; [|simpl; tauto].
    destruct (negb _); [|destruct (_ <=? _)%float];
      repeat match goal with
             | |- context [ringbuffer_consume ?b ?n] =>
               destruct (ringbuffer_consume b n)
             end;
      simpl; intuition discriminate. }
  destruct (playbackPullBody now frames a) as [[[n out] a1] ev1].
  destruct (_ && _).
  - pose proof (playbackStop_facts a1) as K.
    destruct (playbackStop a1) as [a2 ev2].
    destruct K as [K1 K2]. split; [|right; exact K2].
    intros Hin. apply in_app_or in Hin. tauto.
  - split; [exact Hev|left; exact Hst].
Qed.

(** ** C3 *)

(** C3: [playback.start()] is called only by [audio_playbackData], exactly
    when the state goes from SETUP to RUN; a sink pull never calls it and
    never enters RUN.  The start gate compares the source's
    [spiceData.nextPosition], the total of frames the source has written
    (including silence and the frames the sink has already read), with
    [2 * periodFrames + 2 * deviceMaxPeriodFrames]; it does not bound the
    frames resident in the coupling buffer. *)
Theorem start_iff_setup_to_run (now frames : Z) (aSink : AudioState) sp
    (env : Env) (data : list Z) (size : Z) (a : AudioState) :
  (let '(_, _, a', evs) := playbackPullFrames now frames aSink in
   ~ In EvPlaybackStart evs /\
   (PB.state (playback a') = PB.state (playback aSink) \/
    PB.state (playback a') = STREAM_STATE_STOP)) /\
  match audio_playbackData sp env data size a with
  | Some (a', evs) =>
    (In EvPlaybackStart evs <->
     PB.state (playback a) = STREAM_STATE_SETUP /\
     PB.state (playback a') = STREAM_STATE_RUN) /\
    (PB.state (playback a) = STREAM_STATE_SETUP ->
     PB.state (playback a') = STREAM_STATE_RUN ->
     Spice.periodFrames (PB.spiceData (playback a')) * 2 +
     PB.deviceMaxPeriodFrames (playback a') * 2 <=
     Spice.nextPosition (PB.spiceData (playback a')))
  | None => True
  end.
Proof.
  split.
  { exact (playbackPullFrames_no_start now frames aSink). }
  unfold audio_playbackData.
  destruct (audioDev a) as [dev|];
    [|split; [simpl; split; [tauto|intros [H1 H2]; congruence]|congruence]].
  destruct (size =? 0);
    [split; [simpl; split; [tauto|intros [H1 H2]; congruence]|congruence]|].
  destruct (negb _);
    [split; [simpl; split; [tauto|intros [H1 H2]; congruence]|congruence]|].
  cbv zeta.
  destruct (if negb _ then allocScratch _ _ _ else _) as [ok sd1].
  destruct ok; simpl negb; cbv iota.
  2:{ pose proof (playbackStop_facts
                    (set_playback (set_spiceData sd1 (playback a)) a)) as K.
      destruct (playbackStop _) as [a2 ev2]. destruct K as [K1 K2].
      split; [split; [tauto|intros [_ H]; congruence]|intros _ H; congruence]. }
  match goal with
  | |- context [spiceClock ?x1 ?x2 ?x3 ?x4 ?x5 ?x6 ?x7] =>
    pose proof (spiceClock_keeps x1 x2 x3 x4 x5 x6 x7) as Kc;
    destruct (spiceClock x1 x2 x3 x4 x5 x6 x7)
      as [[[[curTime curPos] sdC] bufC] ev1]
  end.
  destruct Kc as [_ [Hn1 _]].
  destruct (offsetFilter _ _ _ _ _ sdC) as [ao sdF].
  unfold rateController. cbv zeta.
  match goal with
  | |- context [resampleLoop ?s1 ?s2 ?s3 ?s4 ?s5 ?s6 ?s7 ?s8 ?s9 ?s10 ?s11 ?s12] =>
    pose proof (resampleLoop_trace s1 s2 s3 s4 s5 s6 s7 s8 s9 s10 s11 s12) as Kl;
    destruct (resampleLoop s1 s2 s3 s4 s5 s6 s7 s8 s9 s10 s11 s12)
      as [st cons buf np ev2|e st cons buf np ev2|]; [| |exact I]
  end;
  destruct Kl as [new [Hnew [_ [Hn2 _]]]]; simpl in Hnew; subst ev2.
  - match goal with
    | |- context [startAndGraph ?x ?y ?z] =>
      pose proof (startAndGraph_keeps x y z) as Ks;
      destruct (startAndGraph x y z) as [p' ev3]
    end.
    destruct Ks as [Hsd [_ [Hmp [_ [Hst [_ Hgate]]]]]].
    simpl in Hst, Hgate. simpl. rewrite Hsd, Hmp. simpl in Hgate |- *.
    split.
    + rewrite <- Hst. split.
      * intros Hin. apply in_app_or in Hin. destruct Hin as [Hin|Hin]; [tauto|].
        apply in_app_or in Hin. tauto.
      * intros Hin. apply in_or_app. right. apply in_or_app. right. exact Hin.
    + intros H1 H2. specialize (Hgate H1 H2). lia.
  - simpl. split.
    + split; [intros Hin; apply in_app_or in Hin; tauto|intros [H1 H2]; congruence].
    + intros H1 H2; congruence.
Qed.

(** C3 fails when the sink pulls before the start: with four 960-frame
    source periods written and one sink period already read in SETUP, the
    fifth source period ([nextPosition = 4800 >= 2 * 960 + 2 * 1024]) calls
    [playback.start()] while 3840 frames, fewer than 3968, are resident. *)
Lemma start_with_few_resident_cex :
  PB.state (playback Fixture.beforeStart) = STREAM_STATE_SETUP /\
  match audio_playbackData Fixture.passthrough (Fixture.env 80000000)
          Fixture.period 3840 Fixture.beforeStart with
  | Some (a', evs) =>
    In EvPlaybackStart evs /\
    PB.state (playback a') = STREAM_STATE_RUN /\
    ringbuffer_getCount (PB.buffer (playback a')) = 3840 /\
    Spice.nextPosition (PB.spiceData (playback a')) = 4800 /\
    ringbuffer_getCount (PB.buffer (playback a')) <
      Spice.periodFrames (PB.spiceData (playback a')) * 2 +
      PB.deviceMaxPeriodFrames (playback a') * 2
  | None => False
  end.
Proof.
  vm_compute. split; [reflexivity|].
  split; [tauto|]. split; [reflexivity|]. split; [reflexivity|].
  split; [reflexivity|]. reflexivity.
Qed.

(** * Further properties of the engine *)

(** ** Backend selection and shutdown *)

(** [audio_init] selects the first backend of the list whose [init()]
    succeeds, and leaves the engine without a backend change when none
    does. *)
Theorem audio_init_first_success (pre : list (LG_AudioDevOps * bool))
    (dev : LG_AudioDevOps) (post : list (LG_AudioDevOps * bool))
    (a : AudioState) :
  (forall d ok, In (d, ok) pre -> ok = false) ->
  audioDev (audio_init (pre ++ (dev, true) :: post) a) = Some dev /\
  audio_init pre a = a.
Proof.
  intros Hpre. induction pre as [|[d ok] pre IH]; simpl.
  - split; reflexivity.
  - rewrite (Hpre d ok (or_introl eq_refl)).
    apply IH. intros d' ok' Hin. exact (Hpre d' ok' (or_intror Hin)).
Qed.

Lemma audio_init_first_success_witness :
  (forall d ok, In (d, ok) [(Fixture.dev, false)] -> ok = false) /\
  audioDev (audio_init ([(Fixture.dev, false)] ++ (Fixture.dev, true) :: [])
              Fixture.audio0) = Some Fixture.dev /\
  audio_init [(Fixture.dev, false)] Fixture.audio0 = Fixture.audio0.
Proof.
  assert (H : forall d ok, In (d, ok) [(Fixture.dev, false)] -> ok = false).
  { intros d ok [E|[]]. injection E as _ <-. reflexivity. }
  split; [exact H|]. exact (audio_init_first_success _ _ _ _ H).
Defined.

(** After [audio_free] the engine has no backend, the playback stream is
    stopped with its coupling buffer freed, the record stream is stopped,
    and the backend's [free()] has been called.  From then on every entry
    point is a no-op: source data, playback and record start, stop, volume
    and mute, and the sink pull, which returns 0 frames.  (Hypothesis: a
    stream in STOP holds no coupling buffer, as [playbackStop] leaves it.) *)
Theorem audio_free_then_noop src_new sp (env : Env) (a : AudioState)
    (data : list Z) (size channels sampleRate now frames : Z)
    (vol : list Z) (m : bool) :
  audioDev a <> None ->
  (PB.state (playback a) = STREAM_STATE_STOP -> PB.buffer (playback a) = None) ->
  let '(a', evs, freed) := audio_free a in
  freed = true /\ audioDev a' = None /\
  PB.state (playback a') = STREAM_STATE_STOP /\
  PB.buffer (playback a') = None /\
  Rec.started (record a') = false /\
  audio_playbackData sp env data size a' = Some (a', []) /\
  audio_playbackStart src_new channels sampleRate a' = (a', []) /\
  audio_playbackStop a' = a' /\
  audio_playbackVolume channels vol a' = (a', []) /\
  audio_playbackMute m a' = (a', []) /\
  audio_recordStart channels sampleRate a' = (a', []) /\
  audio_recordStop a' = (a', []) /\
  audio_recordVolume channels vol a' = (a', []) /\
  audio_recordMute m a' = (a', []) /\
  playbackPullFrames now frames a' = (0, [], a', []).
Proof.
  intros Hd Hinv. unfold audio_free.
  destruct (audioDev a) as [dev|] eqn:Ed; [|congruence].
  destruct (playbackStop a) as [a1 ev1] eqn:Hs.
  assert (Hst : PB.state (playback a1) = STREAM_STATE_STOP /\
                PB.buffer (playback a1) = None).
  { unfold playbackStop in Hs.
    destruct (StreamState_beq (PB.state (playback a)) STREAM_STATE_STOP) eqn:E.
    - injection Hs as <- <-.
      apply internal_StreamState_dec_bl in E. split; [exact E|exact (Hinv E)].
    - injection Hs as <- _. split; reflexivity. }
  destruct Hst as [Hst Hbuf].
  assert (Hr : let '(a2, _) := audio_recordStop a1 in
               playback a2 = playback a1 /\ Rec.started (record a2) = false).
  { assert (Ed1 : audioDev a1 = Some dev).
    { unfold playbackStop in Hs.
      destruct (StreamState_beq _ _); injection Hs as <- _; exact Ed. }
    unfold audio_recordStop. rewrite Ed1.
    destruct (Rec.started (record a1)) eqn:E; simpl; split; auto. }
  destruct (audio_recordStop a1) as [a2 ev2]. destruct Hr as [Hp Hrs].
  rewrite Hp. cbn. rewrite Hst, Hbuf, Hrs.
  do 5 (split; [reflexivity|]).
  repeat split.
  unfold playbackPullFrames, playbackPullBody. cbn. rewrite Hbuf. simpl. rewrite ?Hst.
  destruct (frames =? 0) eqn:E; [apply Z.eqb_eq in E; subst frames|];
    reflexivity.
Qed.

Lemma audio_free_then_noop_witness :
  audioDev Fixture.started <> None /\
  (PB.state (playback Fixture.started) = STREAM_STATE_STOP ->
   PB.buffer (playback Fixture.started) = None) /\
  ltac:(let t := type of (audio_free_then_noop Fixture.srcNew Fixture.passthrough
                   (Fixture.env 0) Fixture.started Fixture.period 3840 2 48000
                   0 960 [1; 2] true) in
        match t with _ -> _ -> ?c => exact c end).
Proof.
  assert (H1 : audioDev Fixture.started <> None) by (vm_compute; discriminate).
  assert (H2 : PB.state (playback Fixture.started) = STREAM_STATE_STOP ->
               PB.buffer (playback Fixture.started) = None)
    by (vm_compute; discriminate).
  split; [exact H1|]. split; [exact H2|].
  exact (audio_free_then_noop Fixture.srcNew Fixture.passthrough
           (Fixture.env 0) Fixture.started Fixture.period 3840 2 48000
           0 960 [1; 2] true H1 H2).
Defined.

(** ** Volume and mute caching *)

Lemma store_volume_spec (n : Z) (src old : list Z) :
  (Z.to_nat n <= length src)%nat -> (Z.to_nat n <= length old)%nat ->
  firstn (Z.to_nat n) (store_volume n src old) = firstn (Z.to_nat n) src /\
  skipn (Z.to_nat n) (store_volume n src old) = skipn (Z.to_nat n) old /\
  length (store_volume n src old) = length old.
Proof.
  intros Hs Ho. unfold store_volume.
  assert (Hl : length (firstn (Z.to_nat n) src) = Z.to_nat n)
    by (rewrite length_firstn; lia).
  split; [|split].
  - rewrite firstn_app, Hl, Nat.sub_diag, firstn_O, app_nil_r, firstn_firstn.
    rewrite Nat.min_id. reflexivity.
  - rewrite skipn_app, Hl, Nat.sub_diag, skipn_O.
    rewrite skipn_all2 by lia. reflexivity.
  - rewrite length_app, Hl, length_skipn. lia.
Qed.

(** [audio_playbackVolume] and [audio_playbackMute].  Without the backend
    callback nothing is stored and nothing is called.  With it, the volume
    call stores [n = min(8, channels)] levels over the first [n] entries of
    the 8-entry cache (the other entries are kept), sets
    [volumeChannels = n], and calls [playback.volume(n, volume)] only when
    the stream is SETUP or RUN; the mute call stores the flag and calls
    [playback.mute] only when the stream is SETUP or RUN.  Neither changes
    the stream state. *)
Theorem playback_volume_mute_cached (dev : LG_AudioDevOps) (channels : Z)
    (vol : list Z) (m : bool) (a : AudioState) :
  audioDev a = Some dev -> 0 <= channels ->
  (Z.to_nat (Z.min 8 channels) <= length vol)%nat ->
  length (PB.volume (playback a)) = 8%nat ->
  let n := Z.min 8 channels in
  let active := STREAM_ACTIVE (PB.state (playback a)) in
  (if has_playback_volume dev then
     let '(a', evs) := audio_playbackVolume channels vol a in
     PB.volumeChannels (playback a') = n /\
     firstn (Z.to_nat n) (PB.volume (playback a')) = firstn (Z.to_nat n) vol /\
     skipn (Z.to_nat n) (PB.volume (playback a')) =
       skipn (Z.to_nat n) (PB.volume (playback a)) /\
     length (PB.volume (playback a')) = 8%nat /\
     PB.state (playback a') = PB.state (playback a) /\
     evs = (if active then [EvPlaybackVolume n vol] else [])
   else audio_playbackVolume channels vol a = (a, [])) /\
  (if has_playback_mute dev then
     let '(a', evs) := audio_playbackMute m a in
     PB.mute (playback a') = m /\
     PB.state (playback a') = PB.state (playback a) /\
     evs = (if active then [EvPlaybackMute m] else [])
   else audio_playbackMute m a = (a, [])).
Proof.
  intros Hd Hc Hv Hl n active.
  assert (Hn : (Z.to_nat n <= 8)%nat) by (subst n; lia).
  pose proof (store_volume_spec n vol (PB.volume (playback a)) Hv
                ltac:(rewrite Hl; exact Hn)) as [K1 [K2 K3]].
  split.
  - unfold audio_playbackVolume. rewrite Hd.
    destruct (has_playback_volume dev); [|reflexivity].
    simpl. fold n. subst active.
    destruct (STREAM_ACTIVE (PB.state (playback a))); simpl;
      (split; [reflexivity|]); rewrite K1, K2, K3, Hl; repeat split.
  - unfold audio_playbackMute. rewrite Hd.
    destruct (has_playback_mute dev); [|reflexivity].
    simpl. subst active.
    destruct (STREAM_ACTIVE (PB.state (playback a))); simpl; repeat split.
Qed.

(** [audio_recordVolume] and [audio_recordMute]: the same caching on the
    record side, with the backend called only while the record stream is
    started. *)
Theorem record_volume_mute_cached (dev : LG_AudioDevOps) (channels : Z)
    (vol : list Z) (m : bool) (a : AudioState) :
  audioDev a = Some dev -> 0 <= channels ->
  (Z.to_nat (Z.min 8 channels) <= length vol)%nat ->
  length (Rec.volume (record a)) = 8%nat ->
  let n := Z.min 8 channels in
  let started := Rec.started (record a) in
  (if has_record_volume dev then
     let '(a', evs) := audio_recordVolume channels vol a in
     Rec.volumeChannels (record a') = n /\
     firstn (Z.to_nat n) (Rec.volume (record a')) = firstn (Z.to_nat n) vol /\
     skipn (Z.to_nat n) (Rec.volume (record a')) =
       skipn (Z.to_nat n) (Rec.volume (record a)) /\
     length (Rec.volume (record a')) = 8%nat /\
     Rec.started (record a') = started /\
     evs = (if started then [EvRecordVolume n vol] else [])
   else audio_recordVolume channels vol a = (a, [])) /\
  (if has_record_mute dev then
     let '(a', evs) := audio_recordMute m a in
     Rec.mute (record a') = m /\
     Rec.started (record a') = started /\
     evs = (if started then [EvRecordMute m] else [])
   else audio_recordMute m a = (a, [])).
Proof.
  intros Hd Hc Hv Hl n started.
  assert (Hn : (Z.to_nat n <= 8)%nat) by (subst n; lia).
  pose proof (store_volume_spec n vol (Rec.volume (record a)) Hv
                ltac:(rewrite Hl; exact Hn)) as [K1 [K2 K3]].
  split.
  - unfold audio_recordVolume. rewrite Hd.
    destruct (has_record_volume dev); [|reflexivity].
    simpl. fold n. subst started.
    destruct (Rec.started (record a)); simpl;
      (split; [reflexivity|]); rewrite K1, K2, K3, Hl; repeat split.
  - unfold audio_recordMute. rewrite Hd.
    destruct (has_record_mute dev); [|reflexivity].
    simpl. subst started.
    destruct (Rec.started (record a)); simpl; repeat split.
Qed.

Lemma playback_volume_mute_cached_witness :
  audioDev Fixture.started = Some Fixture.dev /\ 0 <= 2 /\
  (Z.to_nat (Z.min 8 2) <= length [100; 200])%nat /\
  length (PB.volume (playback Fixture.started)) = 8%nat /\
  ltac:(let t := type of (playback_volume_mute_cached Fixture.dev 2 [100; 200]
                   true Fixture.started) in
        match t with _ -> _ -> _ -> _ -> ?c => exact c end).
Proof.
  split; [vm_compute; reflexivity|]. split; [lia|].
  split; [vm_compute; lia|]. split; [vm_compute; reflexivity|].
  apply playback_volume_mute_cached;
    [vm_compute; reflexivity|lia|vm_compute; lia|vm_compute; reflexivity].
Defined.

Lemma record_volume_mute_cached_witness :
  audioDev Fixture.audio0 = Some Fixture.dev /\ 0 <= 2 /\
  (Z.to_nat (Z.min 8 2) <= length [100; 200])%nat /\
  length (Rec.volume (record Fixture.audio0)) = 8%nat /\
  ltac:(let t := type of (record_volume_mute_cached Fixture.dev 2 [100; 200]
                   true Fixture.audio0) in
        match t with _ -> _ -> _ -> _ -> ?c => exact c end).
Proof.
  split; [reflexivity|]. split; [lia|].
  split; [vm_compute; lia|]. split; [reflexivity|].
  apply record_volume_mute_cached; [reflexivity|lia|vm_compute; lia|reflexivity].
Defined.

(** ** Stream start *)

Lemma playbackStop_keeps_settings (a : AudioState) :
  let '(a', ev) := playbackStop a in
  audioDev a' = audioDev a /\
  PB.volumeChannels (playback a') = PB.volumeChannels (playback a) /\
  PB.volume (playback a') = PB.volume (playback a) /\
  PB.mute (playback a') = PB.mute (playback a) /\
  (PB.state (playback a) <> STREAM_STATE_STOP ->
   exists ev', ev = EvPlaybackStop :: ev').
Proof.
  unfold playbackStop.
  destruct (StreamState_beq (PB.state (playback a)) STREAM_STATE_STOP) eqn:E.
  - apply internal_StreamState_dec_bl in E.
    repeat split; intros H; contradiction.
  - repeat split. intros _. eexists. reflexivity.
Qed.

(** [audio_playbackStart] with a resampler created: a stream that was not
    stopped is stopped at once first ([playback.stop] is the first call);
    then the new stream is in SETUP with an empty coupling buffer, an empty
    tick queue and an empty graph ring, both clock trackers reset
    ([periodFrames = 0], [nextPosition = 0], no sink tick seen, offset and
    rate integrators at 0), the given channels and rate, a sink stride of
    [channels * 4] bytes and the backend's maximum period; the calls after
    the stop are [src_new], [playback.setup], [playback.volume] with the
    cached levels when a volume was cached, [playback.mute] with the cached
    flag when the backend has it, and the graph registration. *)
Theorem playbackStart_fresh_stream src_new (dev : LG_AudioDevOps)
    (st : SRC_STATE) (channels sampleRate : Z) (a : AudioState) :
  audioDev a = Some dev -> src_new channels = Some st ->
  let p := playback a in
  let '(a', evs) := audio_playbackStart src_new channels sampleRate a in
  let p' := playback a' in
  let sd := PB.spiceData p' in
  PB.state p' = STREAM_STATE_SETUP /\
  option_map rb_frames (PB.buffer p') = Some [] /\
  PB.deviceTiming p' = Some [] /\ PB.timings p' = Some [] /\
  PB.channels p' = channels /\ PB.sampleRate p' = sampleRate /\
  PB.stride p' = channels * 4 /\
  PB.deviceMaxPeriodFrames p' = setup_maxPeriodFrames dev /\
  Dev.periodFrames (PB.deviceData p') = 0 /\
  Dev.nextPosition (PB.deviceData p') = 0 /\
  Spice.periodFrames sd = 0 /\ Spice.nextPosition sd = 0 /\
  Spice.devLastTime sd = INT64_MIN /\ Spice.devNextTime sd = INT64_MIN /\
  Spice.offsetError sd = 0.0%float /\ Spice.offsetErrorIntegral sd = 0.0%float /\
  Spice.ratioIntegral sd = 0.0%float /\ Spice.src sd = Some st /\
  exists ev0,
    evs = ev0 ++ [EvSrcNew channels; EvPlaybackSetup channels sampleRate] ++
          (if PB.volumeChannels p =? 0 then []
           else [EvPlaybackVolume (PB.volumeChannels p) (PB.volume p)]) ++
          (if has_playback_mute dev then [EvPlaybackMute (PB.mute p)] else []) ++
          [EvRegisterGraph] /\
    (PB.state p = STREAM_STATE_STOP -> ev0 = []) /\
    (PB.state p <> STREAM_STATE_STOP -> exists ev', ev0 = EvPlaybackStop :: ev').
Proof.
  intros Hd Hs. cbv zeta. unfold audio_playbackStart. rewrite Hd.
  pose proof (playbackStop_keeps_settings a) as K.
  destruct (StreamState_beq (PB.state (playback a)) STREAM_STATE_STOP) eqn:E.
  - apply internal_StreamState_dec_bl in E. simpl. rewrite Hs. simpl.
    do 18 (split; [reflexivity|]).
    exists []. split.
    + destruct (PB.volumeChannels (playback a) =? 0); reflexivity.
    + split; [reflexivity|intros H; contradiction].
  - assert (Hn : PB.state (playback a) <> STREAM_STATE_STOP).
    { intros H. rewrite H in E. discriminate. }
    simpl. destruct (playbackStop a) as [a1 ev1].
    destruct K as [_ [Hv [Hvol [Hm Hev]]]].
    rewrite Hs. simpl.
    do 18 (split; [reflexivity|]).
    exists ev1. split.
    + rewrite Hv, Hvol, Hm.
      destruct (PB.volumeChannels (playback a) =? 0); reflexivity.
    + split; [intros H; contradiction|intros _; exact (Hev Hn)].
Qed.

Lemma playbackStart_fresh_stream_witness :
  audioDev Fixture.started = Some Fixture.dev /\
  Fixture.srcNew 2 = Some (mkSrcState 2 []) /\
  ltac:(let t := type of (playbackStart_fresh_stream Fixture.srcNew Fixture.dev
                   (mkSrcState 2 []) 2 44100 Fixture.started) in
        match t with _ -> _ -> ?c => exact c end).
Proof.
  split; [vm_compute; reflexivity|]. split; [reflexivity|].
  apply playbackStart_fresh_stream; [vm_compute; reflexivity|reflexivity].
Defined.

(** [audio_playbackStart] when the resampler cannot be created: the call
    returns after [src_new] without setting the backend up; the old stream,
    if there was one, has been stopped and freed, and the state is STOP. *)
Theorem playbackStart_src_failure src_new (channels sampleRate : Z)
    (a : AudioState) :
  audioDev a <> None -> src_new channels = None ->
  let '(a', evs) := audio_playbackStart src_new channels sampleRate a in
  PB.state (playback a') = STREAM_STATE_STOP /\
  (PB.state (playback a) <> STREAM_STATE_STOP ->
   PB.buffer (playback a') = None /\ PB.deviceTiming (playback a') = None /\
   Spice.src (PB.spiceData (playback a')) = None) /\
  (exists ev0, evs = ev0 ++ [EvSrcNew channels]) /\
  (forall ch sr, ~ In (EvPlaybackSetup ch sr) evs).
Proof.
  intros Hd Hs. unfold audio_playbackStart.
  destruct (audioDev a) as [dev|]; [|congruence].
  destruct (StreamState_beq (PB.state (playback a)) STREAM_STATE_STOP) eqn:E.
  - apply internal_StreamState_dec_bl in E. simpl. rewrite Hs.
    split; [exact E|]. split; [intros H; contradiction|].
    split; [exists []; reflexivity|]. intros ch sr [H|[]]; discriminate.
  - simpl. rewrite Hs. unfold playbackStop. rewrite E. simpl.
    split; [reflexivity|]. split; [intros _; destruct (Spice.framesIn _); repeat split|].
    split; [destruct (PB.timings (playback a));
      [exists [EvPlaybackStop; EvSrcDelete; EvUnregisterGraph]
      |exists [EvPlaybackStop; EvSrcDelete]]; reflexivity|].
    intros ch sr H. repeat (apply in_app_or in H; destruct H as [H|H]);
      simpl in H; destruct (PB.timings (playback a)); simpl in H;
      intuition discriminate.
Qed.

Lemma playbackStart_src_failure_witness :
  audioDev Fixture.started <> None /\ Fixture.srcFail 2 = None /\
  ltac:(let t := type of (playbackStart_src_failure Fixture.srcFail 2 48000
                   Fixture.started) in
        match t with _ -> _ -> ?c => exact c end).
Proof.
  split; [vm_compute; discriminate|]. split; [reflexivity|].
  apply playbackStart_src_failure; [vm_compute; discriminate|reflexivity].
Defined.

(** ** Record stream start and stop *)

(** [audio_recordStart]: a call while the record stream is started with the
    same channels and rate as the last start does nothing.  Any other call
    stops the running record stream first if there is one, then calls
    [record.start(channels, sampleRate)], marks the stream started with a
    stride of [channels * 2] bytes and remembers the parameters; the cached
    record volume and mute are kept and the playback stream is untouched. *)
Theorem recordStart_reconfigures (dev : LG_AudioDevOps)
    (channels sampleRate : Z) (a : AudioState) :
  audioDev a = Some dev ->
  let r := record a in
  let same := Rec.started r && (channels =? lastChannels a) &&
              (sampleRate =? lastSampleRate a) in
  let '(a', evs) := audio_recordStart channels sampleRate a in
  (same = true -> a' = a /\ evs = []) /\
  (same = false ->
   Rec.started (record a') = true /\ Rec.stride (record a') = channels * 2 /\
   lastChannels a' = channels /\ lastSampleRate a' = sampleRate /\
   Rec.volumeChannels (record a') = Rec.volumeChannels r /\
   Rec.volume (record a') = Rec.volume r /\ Rec.mute (record a') = Rec.mute r /\
   playback a' = playback a /\ audioDev a' = audioDev a /\
   exists evr,
     evs = (if Rec.started r then [EvRecordStop] else []) ++
           EvRecordStart channels sampleRate :: evr).
Proof.
  intros Hd. cbv zeta. unfold audio_recordStart. rewrite Hd.
  destruct (Rec.started (record a)) eqn:Es; simpl.
  - destruct (channels =? lastChannels a) eqn:Ec, (sampleRate =? lastSampleRate a) eqn:Er;
      simpl; (split; intros H; [first [discriminate|split; reflexivity]|]);
      first [discriminate|repeat split; eexists; reflexivity].
  - split; [intros H; discriminate|].
    intros _; repeat split; eexists; reflexivity.
Qed.

(** [audio_recordStop] on a started record stream calls [record.stop()] and
    marks it stopped, keeping the cached volume and mute, so that the next
    [audio_recordStart], even with the same parameters, starts the stream
    again; on a stopped stream it does nothing. *)
Theorem recordStop_then_start_restarts (channels sampleRate : Z)
    (a : AudioState) :
  audioDev a <> None ->
  let '(a1, ev1) := audio_recordStop a in
  (Rec.started (record a) = false -> a1 = a /\ ev1 = []) /\
  (Rec.started (record a) = true ->
   ev1 = [EvRecordStop] /\ Rec.started (record a1) = false /\
   Rec.volumeChannels (record a1) = Rec.volumeChannels (record a) /\
   Rec.volume (record a1) = Rec.volume (record a) /\
   Rec.mute (record a1) = Rec.mute (record a)) /\
  exists evr, snd (audio_recordStart channels sampleRate a1) =
              EvRecordStart channels sampleRate :: evr.
Proof.
  intros Hd. unfold audio_recordStop.
  destruct (audioDev a) as [dev|] eqn:Ed; [|congruence].
  destruct (Rec.started (record a)) eqn:Es; simpl.
  - split; [intros H; discriminate|].
    split; [intros _; repeat split|].
    unfold audio_recordStart. simpl. rewrite Ed. simpl. eexists. reflexivity.
  - split; [intros _; split; reflexivity|].
    split; [intros H; discriminate|].
    unfold audio_recordStart. rewrite Ed, Es. simpl. eexists. reflexivity.
Qed.

Lemma recordStart_reconfigures_witness :
  audioDev Fixture.recordCached = Some Fixture.dev /\
  ltac:(let t := type of (recordStart_reconfigures Fixture.dev 2 48000
                   Fixture.recordCached) in
        match t with _ -> ?c => exact c end).
Proof.
  split; [reflexivity|].
  apply (recordStart_reconfigures Fixture.dev). reflexivity.
Defined.

Lemma recordStop_then_start_restarts_witness :
  audioDev (fst (audio_recordStart 2 48000 Fixture.recordCached)) <> None /\
  ltac:(let t := type of (recordStop_then_start_restarts 2 48000
                   (fst (audio_recordStart 2 48000 Fixture.recordCached))) in
        match t with _ -> ?c => exact c end).
Proof.
  split; [vm_compute; discriminate|].
  apply recordStop_then_start_restarts. vm_compute; discriminate.
Defined.

(** ** Scheduling the drain *)

(** [audio_playbackStop] on a stream that is not stopped only moves it to
    DRAIN: the coupling buffer, the clocks and the resampler stay as they
    are (the sink keeps playing what is buffered), calling it again changes
    nothing, and source data arriving afterwards is dropped with no call.
    On a stopped stream it does nothing. *)
Theorem playbackStop_schedules_drain sp (env : Env) (data : list Z)
    (size : Z) (a : AudioState) :
  audioDev a <> None ->
  let a' := audio_playbackStop a in
  (PB.state (playback a) = STREAM_STATE_STOP -> a' = a) /\
  (PB.state (playback a) <> STREAM_STATE_STOP ->
   playback a' = set_state STREAM_STATE_DRAIN (playback a) /\
   audioDev a' = audioDev a /\ record a' = record a) /\
  audio_playbackStop a' = a' /\
  (PB.state (playback a) <> STREAM_STATE_STOP ->
   audio_playbackData sp env data size a' = Some (a', [])).
Proof.
  intros Hd. cbv zeta. unfold audio_playbackStop.
  destruct (audioDev a) as [dev|] eqn:Ed; [|congruence].
  destruct (StreamState_beq (PB.state (playback a)) STREAM_STATE_STOP) eqn:E.
  - apply internal_StreamState_dec_bl in E. rewrite Ed, E.
    split; [reflexivity|]. split; [intros H; contradiction|].
    split; [reflexivity|intros H; contradiction].
  - simpl. rewrite Ed. simpl.
    split; [intros H; rewrite H in E; discriminate|].
    split; [intros _; repeat split|].
    split; [reflexivity|].
    intros _. unfold audio_playbackData. simpl. rewrite Ed.
    destruct (size =? 0); reflexivity.
Qed.

Lemma playbackStop_schedules_drain_witness :
  audioDev (Fixture.data 0 Fixture.started) <> None /\
  ltac:(let t := type of (playbackStop_schedules_drain Fixture.passthrough
                   (Fixture.env 20000000) Fixture.period 3840
                   (Fixture.data 0 Fixture.started)) in
        match t with _ -> ?c => exact c end).
Proof.
  split; [vm_compute; discriminate|].
  apply playbackStop_schedules_drain. vm_compute; discriminate.
Defined.

(** ** The sink pull *)

Lemma StreamState_beq_false (s t : StreamState) :
  s <> t -> StreamState_beq s t = false.
Proof.
  intros H. destruct (StreamState_beq s t) eqn:E; [|reflexivity].
  apply internal_StreamState_dec_bl in E. contradiction.
Qed.

(** A sink pull of [frames <> 0] frames with a coupling buffer, outside
    DRAIN: it returns [frames] (also on an underrun, when fewer frames were
    resident), hands at most [frames] frames to the device, keeps
    [periodFrames = frames], and its last two calls post the new sink clock
    [(periodFrames, nextTime, nextPosition)] to the tick queue and read the
    period from the coupling buffer; the tick queue gets that tick appended
    (when not full) and the stream state does not change. *)
Theorem pull_reads_and_posts_tick (now frames : Z) (buf : RingBuffer)
    (a : AudioState) :
  frames <> 0 -> PB.buffer (playback a) = Some buf ->
  PB.state (playback a) <> STREAM_STATE_DRAIN ->
  let '(n, out, a', evs) := playbackPullFrames now frames a in
  let d' := PB.deviceData (playback a') in
  let tick := Tick.mkTick (Dev.periodFrames d') (Dev.nextTime d')
                (Dev.nextPosition d') in
  n = frames /\ Dev.periodFrames d' = frames /\
  (length out <= Z.to_nat frames)%nat /\
  (exists ev1, evs = ev1 ++ [EvTickAppend tick; EvBufferConsume true frames]) /\
  PB.deviceTiming (playback a') =
    option_map (fun q => tick_append q tick) (PB.deviceTiming (playback a)) /\
  PB.state (playback a') = PB.state (playback a).
Proof.
  intros Hf Hb Hs. unfold playbackPullFrames, playbackPullBody.
  apply Z.eqb_neq in Hf. rewrite Hf, Hb.
  destruct (negb (frames =? Dev.periodFrames (PB.deviceData (playback a)))) eqn:Ep;
    [|destruct (0.2 <=? _)%float];
    unfold ringbuffer_consume; simpl;
    rewrite (StreamState_beq_false _ _ Hs); simpl;
    (split; [reflexivity|]);
    (split; [try (symmetry; apply Z.eqb_eq, negb_false_iff, Ep); reflexivity|]);
    (split; [rewrite length_firstn; lia|]);
    (split; [first [exists []; reflexivity|eexists [_]; reflexivity]|]);
    split; reflexivity.
Qed.

Lemma pull_reads_and_posts_tick_witness :
  960 <> 0 /\
  PB.buffer (playback Fixture.oneEach) = Some (Fixture.bufferOf Fixture.oneEach) /\
  PB.state (playback Fixture.oneEach) <> STREAM_STATE_DRAIN /\
  ltac:(let t := type of (pull_reads_and_posts_tick 20000000 960
                   (Fixture.bufferOf Fixture.oneEach) Fixture.oneEach) in
        match t with _ -> _ -> _ -> ?c => exact c end).
Proof.
  split; [lia|]. split; [vm_compute; reflexivity|].
  split; [vm_compute; discriminate|].
  apply (pull_reads_and_posts_tick 20000000 960 (Fixture.bufferOf Fixture.oneEach));
    [lia|vm_compute; reflexivity|vm_compute; discriminate].
Defined.

(** A sink pull with no coupling buffer (before a start or after a stop)
    outside DRAIN returns 0 frames and changes nothing. *)
Theorem pull_without_buffer (now frames : Z) (a : AudioState) :
  PB.buffer (playback a) = None ->
  PB.state (playback a) <> STREAM_STATE_DRAIN ->
  playbackPullFrames now frames a = (0, [], a, []).
Proof.
  intros Hb Hs. unfold playbackPullFrames, playbackPullBody.
  destruct (frames =? 0) eqn:E; [apply Z.eqb_eq in E; subst; reflexivity|].
  rewrite Hb. simpl. rewrite (StreamState_beq_false _ _ Hs). reflexivity.
Qed.

Lemma pull_without_buffer_witness :
  PB.buffer (playback Fixture.audio0) = None /\
  PB.state (playback Fixture.audio0) <> STREAM_STATE_DRAIN /\
  playbackPullFrames 0 960 Fixture.audio0 = (0, [], Fixture.audio0, []).
Proof.
  split; [reflexivity|]. split; [discriminate|].
  apply pull_without_buffer; [reflexivity|discriminate].
Defined.

(** ** The clock trackers on a first and on a steady tick *)

(** The first tick of each tracker anchors its clock at [now]: the sink
    (first pull of a stream, [periodFrames = 0]) sets [nextTime = now +
    periodSec * 1e9] with [periodSec = frames / sampleRate], advances
    [nextPosition] by [frames] and computes [(b, c)]; the source (first
    period, [init]) reports [curTime = now] and [curPosition = nextPosition],
    sets [nextTime = now + periodSec * 1e9], leaves [nextPosition] as it is,
    computes [(b, c)] and makes no call. *)
Theorem clock_first_tick_anchors (now frames : Z) (aSink : AudioState)
    (sampleRate : Z) (sbuf : option RingBuffer) (sd : Spice.PlaybackSpiceData) :
  frames <> 0 -> PB.buffer (playback aSink) <> None ->
  Dev.periodFrames (PB.deviceData (playback aSink)) = 0 ->
  (let d := PB.deviceData (playback aSink) in
   let '(_, _, a', _) := playbackPullFrames now frames aSink in
   let d' := PB.deviceData (playback a') in
   let omega := (2.0 * M_PI * 0.05 * Dev.periodSec d')%float in
   Dev.periodFrames d' = frames /\
   Dev.periodSec d' = (Z2F frames / Z2F (PB.sampleRate (playback aSink)))%float /\
   Dev.nextTime d' = now + llrint (Dev.periodSec d' * 1.0e9)%float /\
   Dev.nextPosition d' = Dev.nextPosition d + frames /\
   Dev.b d' = (M_SQRT2 * omega)%float /\ Dev.c d' = (omega * omega)%float) /\
  (let '(curTime, curPosition, sd', sbuf', evs) :=
     spiceClock now frames true true sampleRate sbuf sd in
   let omega := (2.0 * M_PI * 0.05 * Spice.periodSec sd')%float in
   curTime = now /\ curPosition = Spice.nextPosition sd /\
   Spice.periodSec sd' = (Z2F frames / Z2F sampleRate)%float /\
   Spice.nextTime sd' = now + llrint (Spice.periodSec sd' * 1.0e9)%float /\
   Spice.nextPosition sd' = Spice.nextPosition sd /\
   Spice.b sd' = (M_SQRT2 * omega)%float /\ Spice.c sd' = (omega * omega)%float /\
   sbuf' = sbuf /\ evs = []).
Proof.
  intros Hf Hbuf H0. split.
  - unfold playbackPullFrames, playbackPullBody.
    apply Z.eqb_neq in Hf. rewrite Hf.
    destruct (PB.buffer (playback aSink)) as [buf|]; [|congruence].
    rewrite H0, Hf. simpl.
    destruct (StreamState_beq _ _ && _); [|repeat split].
    destruct (playbackStop _) as [a2 ev2] eqn:Hstop.
    unfold playbackStop in Hstop.
    destruct (StreamState_beq _ _); injection Hstop as <- <-; repeat split.
  - unfold spiceClock. repeat split.
Qed.

(** On a same-period tick with [|e| < 0.2 s] each tracker runs its
    delay-locked loop: [nextTime] advances by [(b * e + periodSec) * 1e9]
    (rounded), [periodSec] is corrected by [c * e], [(b, c)] are kept; the
    sink's [nextPosition] advances by [frames] and nothing is discarded, the
    source reports [curTime = nextTime], [curPosition = nextPosition], keeps
    [nextPosition] and makes no call. *)
Theorem clock_steady_tick_loop (now frames : Z) (aSink : AudioState)
    (init : bool) (sampleRate : Z) (sbuf : option RingBuffer)
    (sd : Spice.PlaybackSpiceData) :
  frames <> 0 -> PB.buffer (playback aSink) <> None ->
  frames = Dev.periodFrames (PB.deviceData (playback aSink)) ->
  (0.2 <=? abs (Z2F (now - Dev.nextTime (PB.deviceData (playback aSink))) * 1.0e-9))%float
    = false ->
  (0.2 <=? abs (Z2F (now - Spice.nextTime sd) * 1.0e-9))%float = false ->
  (let d := PB.deviceData (playback aSink) in
   let e := (Z2F (now - Dev.nextTime d) * 1.0e-9)%float in
   let '(_, _, a', evs) := playbackPullFrames now frames aSink in
   let d' := PB.deviceData (playback a') in
   Dev.periodFrames d' = frames /\
   Dev.nextTime d' =
     Dev.nextTime d + llrint ((Dev.b d * e + Dev.periodSec d) * 1.0e9)%float /\
   Dev.periodSec d' = (Dev.periodSec d + Dev.c d * e)%float /\
   Dev.nextPosition d' = Dev.nextPosition d + frames /\
   Dev.b d' = Dev.b d /\ Dev.c d' = Dev.c d /\
   (forall n, ~ In (EvBufferConsume false n) evs)) /\
  (let e := (Z2F (now - Spice.nextTime sd) * 1.0e-9)%float in
   let '(curTime, curPosition, sd', sbuf', evs) :=
     spiceClock now frames false init sampleRate sbuf sd in
   curTime = Spice.nextTime sd /\ curPosition = Spice.nextPosition sd /\
   Spice.nextTime sd' =
     Spice.nextTime sd + llrint ((Spice.b sd * e + Spice.periodSec sd) * 1.0e9)%float /\
   Spice.periodSec sd' = (Spice.periodSec sd + Spice.c sd * e)%float /\
   Spice.nextPosition sd' = Spice.nextPosition sd /\
   Spice.b sd' = Spice.b sd /\ Spice.c sd' = Spice.c sd /\
   sbuf' = sbuf /\ evs = []).
Proof.
  intros Hf Hbuf Hp He Hs. split.
  - unfold playbackPullFrames, playbackPullBody.
    apply Z.eqb_neq in Hf. rewrite Hf.
    destruct (PB.buffer (playback aSink)) as [buf|]; [|congruence].
    rewrite <- Hp, Z.eqb_refl. simpl. rewrite He. simpl.
    destruct (StreamState_beq _ _ && _).
    + destruct (playbackStop _) as [a2 ev2] eqn:Hstop.
      unfold playbackStop in Hstop.
      destruct (StreamState_beq _ _); injection Hstop as <- <-;
        simpl; destruct (PB.timings (playback aSink)); simpl;
        (do 6 (split; [reflexivity|]));
        intros n Hin; simpl in Hin; intuition discriminate.
    + do 6 (split; [reflexivity|]).
      intros n Hin; simpl in Hin; intuition discriminate.
  - unfold spiceClock. rewrite Hs. repeat split.
Qed.

Lemma clock_first_tick_anchors_witness :
  960 <> 0 /\
  PB.buffer (playback (Fixture.data 0 Fixture.started)) <> None /\
  Dev.periodFrames (PB.deviceData (playback (Fixture.data 0 Fixture.started))) = 0 /\
  ltac:(let t := type of (clock_first_tick_anchors 0 960
                   (Fixture.data 0 Fixture.started) 48000 None
                   (PB.spiceData (playback Fixture.started))) in
        match t with _ -> _ -> _ -> ?c => exact c end).
Proof.
  split; [lia|]. split; [vm_compute; discriminate|].
  split; [vm_compute; reflexivity|].
  apply (clock_first_tick_anchors 0 960 (Fixture.data 0 Fixture.started) 48000 None
           (PB.spiceData (playback Fixture.started)));
    [lia|vm_compute; discriminate|vm_compute; reflexivity].
Defined.

Lemma clock_steady_tick_loop_witness :
  960 <> 0 /\
  PB.buffer (playback Fixture.oneEach) <> None /\
  960 = Dev.periodFrames (PB.deviceData (playback Fixture.oneEach)) /\
  (0.2 <=? abs (Z2F (20000000 - Dev.nextTime (PB.deviceData (playback Fixture.oneEach)))
                  * 1.0e-9))%float = false /\
  (0.2 <=? abs (Z2F (20000000 - Spice.nextTime (PB.spiceData (playback Fixture.oneEach)))
                  * 1.0e-9))%float = false /\
  ltac:(let t := type of (clock_steady_tick_loop 20000000 960 Fixture.oneEach
                   false 48000 None (PB.spiceData (playback Fixture.oneEach))) in
        match t with _ -> _ -> _ -> _ -> _ -> ?c => exact c end).
Proof.
  split; [lia|]. split; [vm_compute; discriminate|].
  split; [vm_compute; reflexivity|].
  split; [vm_compute; reflexivity|].
  split; [vm_compute; reflexivity|].
  apply (clock_steady_tick_loop 20000000 960 Fixture.oneEach false 48000 None
           (PB.spiceData (playback Fixture.oneEach)));
    [lia|vm_compute; discriminate|vm_compute; reflexivity
    |vm_compute; reflexivity|vm_compute; reflexivity].
Defined.

(** ** The tick queue between the two threads *)

Lemma drainTicks_app (q1 q2 : list Tick.PlaybackDeviceTick)
    (sd : Spice.PlaybackSpiceData) :
  drainTicks (q1 ++ q2) sd = drainTicks q2 (drainTicks q1 sd).
Proof.
  revert sd. induction q1 as [|t q1 IH]; intros sd; simpl; [reflexivity|apply IH].
Qed.

(** Draining a queue whose last two ticks are [t1] and [t2] leaves the
    source's device clock at the pair [(t1, t2)]: period of [t2], last
    time/position of [t1], next time/position of [t2], whatever came before
    and whatever the source held; no other field changes. *)
Theorem drainTicks_keeps_last_two (q : list Tick.PlaybackDeviceTick)
    (t1 t2 : Tick.PlaybackDeviceTick) (sd : Spice.PlaybackSpiceData) :
  drainTicks (q ++ [t1; t2]) sd =
  Spice.set_dev (Tick.periodFrames t2) (Tick.nextTime t1) (Tick.nextTime t2)
    (Tick.nextPosition t1) (Tick.nextPosition t2) sd.
Proof.
  rewrite drainTicks_app. simpl.
  revert sd. induction q as [|t q IH]; intros sd; simpl; [reflexivity|].
  rewrite IH. reflexivity.
Qed.

Lemma spiceClock_keeps_devClock now frames periodChanged init sampleRate buf sd :
  let '(_, _, sd', _, _) :=
    spiceClock now frames periodChanged init sampleRate buf sd in
  devClock sd' = devClock sd.
Proof.
  unfold spiceClock.
  destruct periodChanged; [|destruct (_ <=? _)%float]; reflexivity.
Qed.

Lemma offsetFilter_keeps_devClock curTime curPosition sampleRate maxp oe sd :
  devClock (snd (offsetFilter curTime curPosition sampleRate maxp oe sd)) =
  devClock sd.
Proof.
  unfold offsetFilter. destruct (_ =? INT64_MIN); [reflexivity|].
  repeat match goal with |- context [if ?c then _ else _] => destruct c end;
    reflexivity.
Qed.

Lemma receiveTicks_devClock q sd sd' :
  devClock sd = devClock sd' ->
  devClock (receiveTicks q sd) = devClock (receiveTicks q sd').
Proof.
  destruct q as [q|]; simpl; [|tauto].
  revert sd sd'. induction q as [|t q IH]; intros sd sd' H; simpl; [exact H|].
  apply IH. unfold devClock in *. simpl. congruence.
Qed.

Lemma startAndGraph_deviceTiming dev actualOffset p :
  PB.deviceTiming (fst (startAndGraph dev actualOffset p)) = PB.deviceTiming p.
Proof.
  unfold startAndGraph.
  destruct (StreamState_beq _ _); [destruct (_ <=? _)|]; reflexivity.
Qed.

(** Each source period of an active stream receives the sink's timing: the
    tick queue is emptied (it stays absent if it was absent), and the
    source's device clock ends as draining the queue into the clock it held
    leaves it (with [drainTicks_keeps_last_two]: the last two ticks). *)
Theorem playbackData_receives_ticks sp (env : Env) (data : list Z)
    (size : Z) (a : AudioState) :
  audioDev a <> None -> size <> 0 ->
  STREAM_ACTIVE (PB.state (playback a)) = true ->
  mallocFramesIn env = true -> mallocFramesOut env = true ->
  match audio_playbackData sp env data size a with
  | Some (a', _) =>
    PB.deviceTiming (playback a') =
      option_map (fun _ => []) (PB.deviceTiming (playback a)) /\
    devClock (PB.spiceData (playback a')) =
      devClock (receiveTicks (PB.deviceTiming (playback a))
                  (PB.spiceData (playback a)))
  | None => True
  end.
Proof.
  intros Hd Hsz Hact Hmi Hmo.
  unfold audio_playbackData.
  destruct (audioDev a) as [dev|]; [|congruence].
  apply Z.eqb_neq in Hsz. rewrite Hsz, Hact. cbv beta iota zeta.
  set (sd0 := PB.spiceData (playback a)).
  set (frames := size / (PB.channels (playback a) * 2)).
  destruct (if negb (frames =? Spice.periodFrames sd0)
            then allocScratch env frames sd0 else (true, sd0))
    as [ok sd1] eqn:Halloc.
  assert (ok = true /\ devClock sd1 = devClock sd0) as [-> H1].
  { destruct (negb _).
    - rewrite allocScratch_ok in Halloc by assumption.
      injection Halloc as <- <-. split; reflexivity.
    - injection Halloc as <- <-. split; reflexivity. }
  simpl negb. cbv iota.
  set (fin := src_short_to_float_array _).
  set (sdS := Spice.set_scratch (Some fin) _ _ _ sd1).
  assert (HD : devClock (receiveTicks (PB.deviceTiming (playback a)) sdS) =
               devClock (receiveTicks (PB.deviceTiming (playback a)) sd0)).
  { apply receiveTicks_devClock. exact H1. }
  set (sdD := receiveTicks _ sdS) in *. clearbody sdD.
  pose proof (spiceClock_keeps_devClock (nanotime env) frames
    (negb (frames =? Spice.periodFrames sd0)) (Spice.periodFrames sd0 =? 0)
    (PB.sampleRate (playback a)) (PB.buffer (playback a)) sdD) as Kc.
  destruct (spiceClock _ _ _ _ _ _ sdD) as [[[[curTime curPos] sdC] bufC] ev1].
  pose proof (offsetFilter_keeps_devClock curTime curPos (PB.sampleRate (playback a))
    (PB.deviceMaxPeriodFrames (playback a)) (Spice.offsetError sdC) sdC) as Kf.
  destruct (offsetFilter _ _ _ _ _ sdC) as [ao sdF].
  simpl in Kf.
  unfold rateController. cbv zeta.
  match goal with
  | |- context [resampleLoop ?s1 ?s2 ?s3 ?s4 ?s5 ?s6 ?s7 ?s8 ?s9 ?s10 ?s11 ?s12] =>
    destruct (resampleLoop s1 s2 s3 s4 s5 s6 s7 s8 s9 s10 s11 s12)
      as [st cons buf np ev2|e st cons buf np ev2|]; [| |exact I]
  end.
  - match goal with
    | |- context [startAndGraph ?x ?y ?z] =>
      pose proof (startAndGraph_keeps x y z) as Ks;
      pose proof (startAndGraph_deviceTiming x y z) as Kt;
      destruct (startAndGraph x y z) as [p' ev3]
    end.
    destruct Ks as [Hsd _]. simpl in Kt |- *. rewrite Kt, Hsd.
    split; [reflexivity|].
    rewrite <- HD, <- Kc, <- Kf. reflexivity.
  - simpl. split; [reflexivity|].
    rewrite <- HD, <- Kc, <- Kf. reflexivity.
Qed.

Lemma playbackData_receives_ticks_witness :
  audioDev Fixture.oneEach <> None /\ 3840 <> 0 /\
  STREAM_ACTIVE (PB.state (playback Fixture.oneEach)) = true /\
  mallocFramesIn (Fixture.env 20000000) = true /\
  mallocFramesOut (Fixture.env 20000000) = true /\
  ltac:(let t := type of (playbackData_receives_ticks Fixture.passthrough
                   (Fixture.env 20000000) Fixture.period 3840 Fixture.oneEach) in
        match t with _ -> _ -> _ -> _ -> _ -> ?c => exact c end).
Proof.
  split; [vm_compute; discriminate|]. split; [lia|].
  split; [vm_compute; reflexivity|]. split; [reflexivity|]. split; [reflexivity|].
  apply playbackData_receives_ticks;
    [vm_compute; discriminate|lia|vm_compute; reflexivity|reflexivity|reflexivity].
Defined.

(** When the source period changes and a scratch buffer cannot be
    allocated, [audio_playbackData] stops the stream and returns: the state
    is STOP, the coupling buffer and the tick queue are freed, [framesIn] is
    released, the new period is recorded, the backend's [stop] is the first
    call, and nothing is resampled, appended or started. *)
Theorem playbackData_malloc_failure_stops sp (env : Env) (data : list Z)
    (size : Z) (a : AudioState) :
  audioDev a <> None -> size <> 0 ->
  STREAM_ACTIVE (PB.state (playback a)) = true ->
  size / (PB.channels (playback a) * 2) <>
    Spice.periodFrames (PB.spiceData (playback a)) ->
  mallocFramesIn env = false \/ mallocFramesOut env = false ->
  exists a' evs,
    audio_playbackData sp env data size a = Some (a', EvPlaybackStop :: evs) /\
    PB.state (playback a') = STREAM_STATE_STOP /\
    PB.buffer (playback a') = None /\ PB.deviceTiming (playback a') = None /\
    Spice.framesIn (PB.spiceData (playback a')) = None /\
    Spice.periodFrames (PB.spiceData (playback a')) =
      size / (PB.channels (playback a) * 2) /\
    ~ In EvPlaybackStart evs /\
    (forall d, ~ In (EvSrcProcess d) evs) /\
    (forall d n, ~ In (EvBufferAppend d n) evs).
Proof.
  intros Hd Hsz Hact Hp Hm.
  unfold audio_playbackData.
  destruct (audioDev a) as [dev|]; [|congruence].
  apply Z.eqb_neq in Hsz. rewrite Hsz, Hact. cbv beta iota zeta.
  apply Z.eqb_neq in Hp. rewrite Hp. simpl negb. cbv iota.
  assert (Hst : PB.state (playback a) <> STREAM_STATE_STOP).
  { intros E. rewrite E in Hact. discriminate. }
  apply StreamState_beq_false in Hst.
  unfold allocScratch.
  destruct Hm as [Hm|Hm]; rewrite Hm; simpl negb; cbv iota;
    [|destruct (mallocFramesIn env); simpl negb; cbv iota];
    unfold playbackStop; simpl; rewrite Hst; simpl;
    (eexists; eexists; split; [reflexivity|]);
    simpl; (do 5 (split; [reflexivity|]));
    destruct (PB.timings (playback a)); simpl;
    (split; [intuition discriminate|]);
    (split; intros; intuition discriminate).
Qed.

Lemma playbackData_malloc_failure_stops_witness :
  audioDev Fixture.oneEach <> None /\ 1920 <> 0 /\
  STREAM_ACTIVE (PB.state (playback Fixture.oneEach)) = true /\
  1920 / (PB.channels (playback Fixture.oneEach) * 2) <>
    Spice.periodFrames (PB.spiceData (playback Fixture.oneEach)) /\
  (mallocFramesIn (mkEnv 20000000 true false 100) = false \/
   mallocFramesOut (mkEnv 20000000 true false 100) = false) /\
  ltac:(let t := type of (playbackData_malloc_failure_stops Fixture.passthrough
                   (mkEnv 20000000 true false 100) Fixture.halfPeriod 1920
                   Fixture.oneEach) in
        match t with _ -> _ -> _ -> _ -> _ -> ?c => exact c end).
Proof.
  split; [vm_compute; discriminate|]. split; [lia|].
  split; [vm_compute; reflexivity|]. split; [vm_compute; discriminate|].
  split; [right; reflexivity|].
  apply playbackData_malloc_failure_stops;
    [vm_compute; discriminate|lia|vm_compute; reflexivity
    |vm_compute; discriminate|right; reflexivity].
Defined.
